(** * The two-party merge protocol of [problem1/merge_worker.py]

    A shallow embedding of [MergeWorker] and [Coordinator]: the files a
    worker touches (inbox, outbox, shared output, state file) are explicit
    slots of a record, Python exceptions are a result constructor that keeps
    the effects performed before the raise, and every file-system effect is
    also recorded, in order, in a log. *)

From Stdlib Require Import ZArith List String Ascii Bool Lia.
From Stdlib Require Import Permutation Sorted.
Import ListNotations.

Local Open Scope string_scope.
Local Open Scope list_scope.
Local Open Scope Z_scope.

(** ** Data *)

(** [Message]: a type tag and a list of integers (the JSON object written
    to a mailbox file). *)
Record Message := mkMessage { msg_type : string; values : list Z }.

Record WorkerStats := mkStats {
  comparisons : Z;
  messages_sent : Z;
  messages_received : Z;
  values_output : Z }.

(** The [self.state] dictionary: keys ["phase"], ["index"], ["len"]. *)
Record State := mkState { phase : string; index : Z; len : Z }.

(** One [f.write] on the output file: the separator [", "] or the decimal
    text of an integer. *)
Inductive Piece := Sep | Num (v : Z).

Inductive Exn := IndexError | AttributeError.

Inductive Result (A : Type) :=
| Ok (a : A)
| Raise (e : Exn).
Arguments Ok {A} a.
Arguments Raise {A} e.

(** File-system effects, in the order they happen. *)
Inductive Event :=
| EvInboxRead (m : Message)      (* inbox loaded and unlinked *)
| EvOutputWrite (p : Piece)      (* one write appended to the output *)
| EvStateSave (s : State)        (* state file rewritten *)
| EvOutboxWrite (m : Message).   (* outbox rewritten *)

(** The object: [self.data], [self.state], [self.stats]. *)
Record Worker := mkWorker {
  data : list Z;
  state : State;
  stats : WorkerStats }.

(** The four paths of a worker; [None] is a file that does not exist. *)
Record Files := mkFiles {
  inbox : option Message;
  outbox : option Message;
  output : list Piece;
  state_file : option State }.

Record Sys := mkSys { self : Worker; fs : Files; log : list Event }.

(** ** Python list access *)

Definition py_len (l : list Z) : Z := Z.of_nat (List.length l).

(** [l[i]]: negative indices count from the end, anything else out of
    range raises. *)
Definition py_getitem (l : list Z) (i : Z) : option Z :=
  let n := py_len l in
  if (0 <=? i) && (i <? n) then nth_error l (Z.to_nat i)
  else if (- n <=? i) && (i <? 0) then nth_error l (Z.to_nat (n + i))
  else None.

Definition py_clamp (n k : Z) : Z :=
  if k <? 0 then Z.max 0 (k + n) else Z.min k n.

(** [l[i:j]] *)
Definition py_slice (l : list Z) (i j : Z) : list Z :=
  let n := py_len l in
  let i' := py_clamp n i in
  let j' := py_clamp n j in
  firstn (Z.to_nat (j' - i')) (skipn (Z.to_nat i') l).

(** ** A state monad with exceptions *)

Definition M (A : Type) : Type := Sys -> Sys * Result A.

Definition ret {A} (a : A) : M A := fun s => (s, Ok a).

Definition bind {A B} (c : M A) (k : A -> M B) : M B :=
  fun s =>
    match c s with
    | (s', Ok a) => k a s'
    | (s', Raise e) => (s', Raise e)
    end.

Definition raise {A} (e : Exn) : M A := fun s => (s, Raise e).

Declare Scope py_scope.
Delimit Scope py_scope with py.
Notation "x <- c ;; k" := (bind c (fun x => k))
  (at level 100, c at next level, right associativity) : py_scope.
Notation "' pat <- c ;; k" := (bind c (fun x => match x with pat => k end))
  (at level 100, pat pattern, c at next level, right associativity) : py_scope.
Notation "c ;; k" := (bind c (fun _ => k))
  (at level 100, right associativity) : py_scope.
Local Open Scope py_scope.

Definition get_data : M (list Z) := fun s => (s, Ok (data (self s))).
Definition get_state : M State := fun s => (s, Ok (state (self s))).

Definition set_state (st : State) : M unit :=
  fun s => (mkSys (mkWorker (data (self s)) st (stats (self s))) (fs s) (log s), Ok tt).

Definition set_phase (p : string) : M unit :=
  st <- get_state ;; set_state (mkState p (index st) (len st)).

Definition set_index (i : Z) : M unit :=
  st <- get_state ;; set_state (mkState (phase st) i (len st)).

Definition set_stats (f : WorkerStats -> WorkerStats) : M unit :=
  fun s => (mkSys (mkWorker (data (self s)) (state (self s)) (f (stats (self s))))
                  (fs s) (log s), Ok tt).

Definition inc_comparisons (t : WorkerStats) : WorkerStats :=
  mkStats (comparisons t + 1) (messages_sent t) (messages_received t) (values_output t).
Definition inc_sent (t : WorkerStats) : WorkerStats :=
  mkStats (comparisons t) (messages_sent t + 1) (messages_received t) (values_output t).
Definition inc_received (t : WorkerStats) : WorkerStats :=
  mkStats (comparisons t) (messages_sent t) (messages_received t + 1) (values_output t).
Definition inc_output (t : WorkerStats) : WorkerStats :=
  mkStats (comparisons t) (messages_sent t) (messages_received t) (values_output t + 1).

(** [self.data[i]] *)
Definition data_at (i : Z) : M Z :=
  d <- get_data ;;
  match py_getitem d i with
  | Some v => ret v
  | None => raise IndexError
  end.

(** [f.write(...)] on the output file opened in append mode. *)
Definition append_output (p : Piece) : M unit :=
  fun s =>
    let f := fs s in
    (mkSys (self s)
           (mkFiles (inbox f) (outbox f) (output f ++ [p]) (state_file f))
           (log s ++ [EvOutputWrite p]), Ok tt).

(** ** MergeWorker *)

Definition _initial_state (d : list Z) : State := mkState "INIT" 0 (py_len d).

Definition _load_state : M State :=
  fun s =>
    match state_file (fs s) with
    | Some st => (s, Ok st)
    | None => (s, Ok (_initial_state (data (self s))))
    end.

Definition _save_state : M unit :=
  fun s =>
    let f := fs s in
    let st := state (self s) in
    (mkSys (self s)
           (mkFiles (inbox f) (outbox f) (output f) (Some st))
           (log s ++ [EvStateSave st]), Ok tt).

(** [MergeWorker.__init__] followed by nothing else: a fresh object over
    the existing files. *)
Definition new_worker (d : list Z) (f : Files) : Worker :=
  mkWorker d
           (match state_file f with Some st => st | None => _initial_state d end)
           (mkStats 0 0 0 0).

(** The [while] of [output_till]; the local [index] and the flag [write]
    are threaded.  [fuel] is [count - index], the number of iterations the
    guard [index < count] allows. *)
Fixpoint output_loop (fuel : nat) (max_v idx count : Z) (write : bool)
  : M (Z * bool) :=
  match fuel with
  | O => ret (idx, write)
  | S fuel' =>
      if idx <? count then
        v <- data_at idx ;;
        if v <? max_v then
          (if write then append_output Sep else ret tt) ;;
          append_output (Num v) ;;
          set_stats inc_comparisons ;;
          set_stats inc_output ;;
          output_loop fuel' max_v (idx + 1) count true
        else ret (idx, write)
      else ret (idx, write)
  end.

(** [output_till(max_v, include)]; returns the phase and the updated
    [write] flag. *)
Definition output_till (max_v : Z) (include : bool) (write : bool)
  : M (string * bool) :=
  st <- get_state ;;
  let count := len st in
  '(idx, write) <- output_loop (Z.to_nat (count - index st)) max_v (index st) count write ;;
  set_index idx ;;
  write <- (if include then
              (if write then append_output Sep else ret tt) ;;
              append_output (Num max_v) ;;
              set_stats inc_output ;;
              ret true
            else ret write) ;;
  if count <=? idx then ret ("DONE", write) else ret ("LOCK", write).

Definition read_inbox : M (option Message) :=
  fun s =>
    let f := fs s in
    match inbox f with
    | None => (s, Ok None)
    | Some m =>
        let w := self s in
        (mkSys (mkWorker (data w) (state w) (inc_received (stats w)))
               (mkFiles None (outbox f) (output f) (state_file f))
               (log s ++ [EvInboxRead m]), Ok (Some m))
    end.

Definition write_msg (m : Message) : M unit :=
  fun s =>
    let f := fs s in
    let w := self s in
    (mkSys (mkWorker (data w) (state w) (inc_sent (stats w)))
           (mkFiles (inbox f) (Some m) (output f) (state_file f))
           (log s ++ [EvOutboxWrite m]), Ok tt).

(** [for i in inbox_value: self.state['phase'] = output_till(i, True)] *)
Fixpoint emit_checkpoints (vs : list Z) (write : bool) : M bool :=
  match vs with
  | [] => ret write
  | i :: vs' =>
      '(p, write) <- output_till i true write ;;
      set_phase p ;;
      emit_checkpoints vs' write
  end.

(** The first character of the tag is the separator flag. *)
Definition split_flag (inbox : option Message) : M (bool * option Message) :=
  match inbox with
  | None => ret (false, None)
  | Some m =>
      match msg_type m with
      | EmptyString => raise IndexError
      | String c rest => ret (Ascii.eqb c "T", Some (mkMessage rest (values m)))
      end
  end.

Definition inbox_is (inbox : option Message) (tag : string) : bool :=
  match inbox with
  | Some m => String.eqb (msg_type m) tag
  | None => false
  end.

Definition is_some {A} (o : option A) : bool :=
  match o with Some _ => true | None => false end.

(** The three branches of [step]: from [nextindex = ...] to the line before
    [self._save_state()].  The message is [None] where the source leaves
    [msg = None]. *)
Definition build_message (write : bool) (inbox : option Message)
  : M (option Message * bool) :=
  st <- get_state ;;
  let nextindex := Z.min (len st) (index st + 11) in
  if String.eqb (phase st) "INIT" && negb (is_some inbox) then
    d <- get_data ;;
    let vs := py_slice d (index st) nextindex in
    set_index nextindex ;;
    (if len st <=? nextindex then
       set_phase "DONE" ;; ret (Some (mkMessage "DONE" vs), write)
     else
       set_phase "LOCK" ;; ret (Some (mkMessage "UNLO" vs), write))
  else if inbox_is inbox "DONE" then
    if String.eqb (phase st) "DONE" then ret (None, write)
    else
      write <- emit_checkpoints (match inbox with Some m => values m | None => [] end) write ;;
      last <- data_at (-1) ;;
      '(p, write) <- output_till (last + 1) false write ;;
      set_phase p ;;
      ret (Some (mkMessage "DONE" []), write)
  else
    write <- emit_checkpoints (match inbox with Some m => values m | None => [] end) write ;;
    st <- get_state ;;
    d <- get_data ;;
    let nextindex := Z.min (len st) (index st + 11) in
    let vs := py_slice d (index st) nextindex in
    set_index nextindex ;;
    (if negb (String.eqb (phase st) "DONE") then
       set_phase "LOCK" ;; ret (Some (mkMessage "UNLO" vs), write)
     else ret (Some (mkMessage "DONE" vs), write)).

Definition step_branches (write : bool) (inbox : option Message)
  : M (option Message * bool) :=
  r <- build_message write inbox ;;
  _save_state ;;
  ret r.

(** [step] up to and including [self._save_state()]: either an early
    [return], or the message built, the flag and the stripped inbox. *)
Definition step_compute : M (bool + (option Message * bool * option Message)) :=
  st <- _load_state ;;
  set_state st ;;
  if String.eqb (phase st) "DONE" then ret (inl false)
  else
    raw <- read_inbox ;;
    '(write, inbox) <- split_flag raw ;;
    let continue :=
      '(msg, write) <- step_branches write inbox ;;
      ret (inr (msg, write, inbox)) in
    if String.eqb (phase st) "LOCK" then
      if is_some inbox && (inbox_is inbox "DONE" || inbox_is inbox "UNLO") then
        set_phase "UNLOCK" ;; continue
      else ret (inl true)
    else continue.

(** The rest of [step], after the state was saved: stamp the flag on the
    tag, write the outbox, return. *)
Definition step_send (msg : option Message) (write : bool) (inbox : option Message)
  : M bool :=
  msg <- match msg with
         | None => raise AttributeError
         | Some m =>
             ret (mkMessage (String.append (if write then "T" else "F") (msg_type m)) (values m))
         end ;;
  st <- get_state ;;
  if String.eqb (phase st) "DONE" then
    write_msg msg ;; ret false
  else
    write_msg msg ;;
    if is_some inbox
       && (match inbox with Some m => String.eqb (msg_type m) (phase st) | None => false end)
       && String.eqb (phase st) "DONE"
    then ret false
    else ret true.

Definition step : M bool :=
  r <- step_compute ;;
  match r with
  | inl b => ret b
  | inr (msg, write, inbox) => step_send msg write inbox
  end.

(** ** Coordinator *)

(** [Coordinator.run] only calls [step()] on its two workers, so the loop is
    written over any two step functions on a shared world. *)
Section Coordinator.
Context {World : Type}.
Variables step_a step_b : World -> World * Result bool.

(** [if active[i]: active[i] = worker.step(); steps += 1] *)
Definition run_turn (stp : World -> World * Result bool)
           (w : World) (active : bool) (steps : Z)
  : World * Result (bool * Z) :=
  if active then
    match stp w with
    | (w', Ok b) => (w', Ok (b, steps + 1))
    | (w', Raise e) => (w', Raise e)
    end
  else (w, Ok (active, steps)).

(** The [while] loop.  Every pass with an active worker adds at least one
    to [steps], so [max_steps] passes are always enough; [None] is the
    fuel running out. *)
Fixpoint run_loop (fuel : nat) (max_steps : Z)
         (w : World) (act_a act_b : bool) (steps : Z)
  : World * option (Result (bool * bool * Z)) :=
  if (act_a || act_b) && (steps <? max_steps) then
    match fuel with
    | O => (w, None)
    | S fuel' =>
        match run_turn step_a w act_a steps with
        | (w1, Raise e) => (w1, Some (Raise e))
        | (w1, Ok (act_a', steps1)) =>
            match run_turn step_b w1 act_b steps1 with
            | (w2, Raise e) => (w2, Some (Raise e))
            | (w2, Ok (act_b', steps2)) =>
                run_loop fuel' max_steps w2 act_a' act_b' steps2
            end
        end
    end
  else (w, Some (Ok (act_a, act_b, steps))).

Definition run_fuel (max_steps : Z) : nat := Z.to_nat max_steps.

(** [success] and [total_steps] of the returned dictionary (the stats are
    read off the workers of the final world). *)
Definition run (max_steps : Z) (w : World)
  : World * option (Result (bool * Z)) :=
  match run_loop (run_fuel max_steps) max_steps w true true 0 with
  | (w', Some (Ok (act_a, act_b, steps))) =>
      (w', Some (Ok (negb (act_a || act_b), steps)))
  | (w', Some (Raise e)) => (w', Some (Raise e))
  | (w', None) => (w', None)
  end.
End Coordinator.

(** ** Two workers wired crosswise

    The set-up of the test at the end of the source file: A's outbox is
    B's inbox and the reverse, one output file, one state file each. *)

Inductive WorkerId := WA | WB.

Record Cluster := mkCluster {
  worker_a : Worker;
  worker_b : Worker;
  a_to_b : option Message;
  b_to_a : option Message;
  out_file : list Piece;
  state_a : option State;
  state_b : option State;
  events : list (WorkerId * Event) }.

Definition step_A (c : Cluster) : Cluster * Result bool :=
  let '(s, r) := step (mkSys (worker_a c)
                             (mkFiles (b_to_a c) (a_to_b c) (out_file c) (state_a c))
                             []) in
  (mkCluster (self s) (worker_b c)
             (outbox (fs s)) (inbox (fs s)) (output (fs s))
             (state_file (fs s)) (state_b c)
             (events c ++ map (pair WA) (log s)), r).

Definition step_B (c : Cluster) : Cluster * Result bool :=
  let '(s, r) := step (mkSys (worker_b c)
                             (mkFiles (a_to_b c) (b_to_a c) (out_file c) (state_b c))
                             []) in
  (mkCluster (worker_a c) (self s)
             (inbox (fs s)) (outbox (fs s)) (output (fs s))
             (state_a c) (state_file (fs s))
             (events c ++ map (pair WB) (log s)), r).

Definition no_files : Files := mkFiles None None [] None.

(** All files removed, then both workers constructed. *)
Definition fresh_cluster (data_a data_b : list Z) : Cluster :=
  mkCluster (new_worker data_a no_files) (new_worker data_b no_files)
            None None [] None None [].

Definition coordinator_run (max_steps : Z) (c : Cluster) :=
  run step_A step_B max_steps c.

(** ** Reading the output file back

    The test splits the text at commas and converts every non-blank field.
    Two numbers written with no separator between them would run together
    into one field, which is [None] here. *)
Fixpoint read_output (ps : list Piece) : option (list Z) :=
  match ps with
  | [] => Some []
  | Sep :: ps' => read_output ps'
  | Num v :: ps' =>
      match ps' with
      | Num _ :: _ => None
      | _ => option_map (cons v) (read_output ps')
      end
  end.

Definition merged (c : Cluster) : option (list Z) := read_output (out_file c).

Definition range (lo : Z) (n : nat) (stride : Z) : list Z :=
  map (fun k => lo + stride * Z.of_nat k) (seq 0 n).

(** ** Vocabulary of the properties *)

(** What [_load_state] returns over files [f] for a worker holding [d]. *)
Definition persisted (d : list Z) (f : Files) : State :=
  match state_file f with
  | Some st => st
  | None => _initial_state d
  end.

Definition known_phase (p : string) : Prop :=
  p = "INIT" \/ p = "LOCK" \/ p = "UNLOCK" \/ p = "DONE".

(** A consistent state for a worker holding [d]. *)
Definition wf_state (d : list Z) (st : State) : Prop :=
  0 <= index st <= len st /\ len st = py_len d /\ known_phase (phase st).

(** [s'] differs from [s] on the file system by appended output only, and
    the log grew by exactly those writes. *)
Definition appends (s s' : Sys) : Prop :=
  data (self s') = data (self s) /\
  inbox (fs s') = inbox (fs s) /\
  outbox (fs s') = outbox (fs s) /\
  state_file (fs s') = state_file (fs s) /\
  exists ps, output (fs s') = output (fs s) ++ ps /\
             log s' = log s ++ map EvOutputWrite ps.

(** The cursor moved forward, not past [len]; the phase was kept or set to
    a phase that [output_till] or the branches assign. *)
Definition advances (st st' : State) : Prop :=
  len st' = len st /\
  index st <= index st' /\
  (index st <= len st -> index st' <= len st) /\
  (phase st' = phase st \/ phase st' = "LOCK" \/ phase st' = "DONE").

Definition evolves (s s' : Sys) : Prop :=
  appends s s' /\ advances (state (self s)) (state (self s')).

(** Two systems that differ at most in the statistics counters. *)
Definition same_but_stats (s1 s2 : Sys) : Prop :=
  data (self s1) = data (self s2) /\
  state (self s1) = state (self s2) /\
  fs s1 = fs s2 /\
  log s1 = log s2.

(** A computation that cannot tell such systems apart. *)
Definition blind {A} (c : M A) : Prop :=
  forall s1 s2, same_but_stats s1 s2 ->
    same_but_stats (fst (c s1)) (fst (c s2)) /\ snd (c s1) = snd (c s2).

Definition is_outbox_write (e : Event) : bool :=
  match e with EvOutboxWrite _ => true | _ => false end.
Definition is_state_save (e : Event) : bool :=
  match e with EvStateSave _ => true | _ => false end.

Definition sent_messages (l : list Event) : list Message :=
  flat_map (fun e => match e with EvOutboxWrite m => [m] | _ => [] end) l.

(** The cursor and the stored length stay inside [self.data]. *)
Definition in_bounds (s : Sys) : Prop :=
  0 <= index (state (self s)) /\ len (state (self s)) <= py_len (data (self s)).

(** What a built message can carry: the empty acknowledgement of a
    [DONE] message, or the slice of [d] between a position [i] at or after
    the old cursor and the new cursor, which is [min(len, i + 11)]. *)
Definition chunk_of (d : list Z) (st st' : State) (inbox : option Message)
           (m : Message) : Prop :=
  (inbox_is inbox "DONE" = true /\ m = mkMessage "DONE" [])
  \/ (inbox_is inbox "DONE" = false /\
      exists i,
        index st <= i /\
        (index st <= len st -> i <= len st) /\
        index st' = Z.min (len st) (i + 11) /\
        values m = py_slice d i (index st') /\
        (msg_type m = "UNLO" \/ msg_type m = "DONE")).

(** The tag of a received message without its flag character. *)
Definition strip_flag (m : Message) : Message :=
  match msg_type m with
  | EmptyString => m
  | String _ rest => mkMessage rest (values m)
  end.

Definition stamp (write : bool) (m : Message) : Message :=
  mkMessage (String.append (if write then "T" else "F") (msg_type m)) (values m).

Definition reads (f : Files) : list Event :=
  match inbox f with
  | Some m => [EvInboxRead m]
  | None => []
  end.

(** The in-memory state with which the branches start: the loaded state,
    unlocked if it was [LOCK]. *)
Definition unlocked (st : State) : State :=
  if String.eqb (phase st) "LOCK" then mkState "UNLOCK" (index st) (len st) else st.

(** The possible outcomes of one [step()] of worker [w] over files [f]. *)
Inductive StepOutcome (w : Worker) (f : Files) (lg : list Event)
  : Sys -> Result bool -> Prop :=
| out_done :
    phase (persisted (data w) f) = "DONE" ->
    StepOutcome w f lg
      (mkSys (mkWorker (data w) (persisted (data w) f) (stats w)) f lg) (Ok false)
| out_wait :
    phase (persisted (data w) f) = "LOCK" ->
    inbox f = None ->
    StepOutcome w f lg
      (mkSys (mkWorker (data w) (persisted (data w) f) (stats w)) f lg) (Ok true)
| out_ignored m :
    phase (persisted (data w) f) = "LOCK" ->
    inbox f = Some m ->
    inbox_is (Some (strip_flag m)) "DONE" = false ->
    inbox_is (Some (strip_flag m)) "UNLO" = false ->
    StepOutcome w f lg
      (mkSys (mkWorker (data w) (persisted (data w) f) (inc_received (stats w)))
             (mkFiles None (outbox f) (output f) (state_file f))
             (lg ++ [EvInboxRead m])) (Ok true)
| out_raised s' ps :
    data (self s') = data w ->
    fs s' = mkFiles None (outbox f) (output f ++ ps) (state_file f) ->
    log s' = lg ++ reads f ++ map EvOutputWrite ps ->
    (0 <= index (persisted (data w) f) ->
     len (persisted (data w) f) <= py_len (data w) ->
     exists m, inbox f = Some m /\
               (msg_type m = EmptyString \/
                (inbox_is (Some (strip_flag m)) "DONE" = true /\ data w = []))) ->
    StepOutcome w f lg s' (Raise IndexError)
| out_sent s' ps m0 write :
    data (self s') = data w ->
    phase (persisted (data w) f) <> "DONE" ->
    fs s' = mkFiles None (Some (stamp write m0)) (output f ++ ps)
                    (Some (state (self s'))) ->
    log s' = lg ++ reads f ++ map EvOutputWrite ps
                ++ [EvStateSave (state (self s')); EvOutboxWrite (stamp write m0)] ->
    (index (persisted (data w) f) <= len (persisted (data w) f) ->
     advances (unlocked (persisted (data w) f)) (state (self s'))) ->
    chunk_of (data w) (persisted (data w) f) (state (self s'))
             (option_map strip_flag (inbox f)) m0 ->
    StepOutcome w f lg s' (Ok (negb (String.eqb (phase (state (self s'))) "DONE"))).

(** ** Restart *)

(** A new object built over the files the old one left behind. *)
Definition restart (w : Worker) (f : Files) : Worker := new_worker (data w) f.

(** What a worker is seen to do over several calls of [step]: before each
    call the peer may have changed the files (an element of [peer]); each
    call is recorded with the files it leaves, its effects in order, and
    what it returned or raised. *)
Fixpoint steps_trace (peer : list (Files -> Files)) (w : Worker) (f : Files)
  : list (Files * list Event * Result bool) :=
  match peer with
  | [] => []
  | g :: peer' =>
      let '(s', r) := step (mkSys w (g f) []) in
      (fs s', log s', r) :: steps_trace peer' (self s') (fs s')
  end.

(** ** Crash between persisting and sending *)

(** Every outbox write of a log has a state save before it. *)
Definition save_precedes_send (l : list Event) : Prop :=
  forall pre m post,
    l = pre ++ EvOutboxWrite m :: post ->
    exists st, In (EvStateSave st) pre.

(** The files as a crash right after [self._save_state()] leaves them,
    with the message that was about to be written. *)
Definition crash_after_save (w : Worker) (f : Files) : option (Files * Message) :=
  match step_compute (mkSys w f []) with
  | (s1, Ok (inr (Some m, write, _))) => Some (fs s1, stamp write m)
  | _ => None
  end.

(** A worker resumed in phase [LOCK] waits for the reply to a chunk it
    takes as sent.  The crash would be harmless if that chunk were then
    always in the outbox. *)
Definition resumed_belief_is_true : Prop :=
  forall w f f1 m,
    crash_after_save w f = Some (f1, m) ->
    phase (persisted (data w) f1) = "LOCK" ->
    outbox f1 = Some m.

(** ** Counting calls *)

(** A step function that also counts how often it is called. *)
Definition counting {World : Type} (stp : World -> World * Result bool)
  : nat * World -> (nat * World) * Result bool :=
  fun '(n, w) =>
    match stp w with
    | (w', r) => ((S n, w'), r)
    end.

(** The number of [step()] calls of [Coordinator.run] on the two workers of
    a fresh cluster, with what [run] returns. *)
Definition counted_run (max_steps : Z) (c : Cluster)
  : nat * option (Result (bool * Z)) :=
  let '((n, _), r) := run (counting step_A) (counting step_B) max_steps (0%nat, c) in
  (n, r).

(** The persist-before-send rule together with what it is meant to buy. *)
Definition persist_then_send_claim : Prop :=
  (forall w f, save_precedes_send (log (fst (step (mkSys w f []))))) /\
  resumed_belief_is_true.

(** ** The emission, as functions on lists *)

(** The values at the front of [l] that are strictly below [b]: what the
    [while] of [output_till] writes. *)
Fixpoint take_below (b : Z) (l : list Z) : list Z :=
  match l with
  | [] => []
  | v :: l' => if v <? b then v :: take_below b l' else []
  end.

(** What the [while] leaves. *)
Fixpoint drop_below (b : Z) (l : list Z) : list Z :=
  match l with
  | [] => []
  | v :: l' => if v <? b then drop_below b l' else l
  end.

Definition nonempty {A} (l : list A) : bool :=
  match l with [] => false | _ :: _ => true end.

(** The writes for the values [vs], given the separator flag. *)
Fixpoint render (write : bool) (vs : list Z) : list Piece :=
  match vs with
  | [] => []
  | v :: vs' => (if write then [Sep] else []) ++ Num v :: render true vs'
  end.

(** The checkpoints [cps] of the peer woven into the rest of the own run:
    the values written, and what is left of the run. *)
Fixpoint weave (cps rest : list Z) : list Z * list Z :=
  match cps with
  | [] => ([], rest)
  | c :: cps' =>
      let '(out, rest') := weave cps' (drop_below c rest) in
      (take_below c rest ++ c :: out, rest')
  end.

(** A system after it wrote the values [vs], with new state and counters. *)
Definition emit_sys (s : Sys) (t : WorkerStats) (st' : State)
           (write : bool) (vs : list Z) : Sys :=
  mkSys (mkWorker (data (self s)) st' t)
        (mkFiles (inbox (fs s)) (outbox (fs s))
                 (output (fs s) ++ render write vs) (state_file (fs s)))
        (log s ++ map EvOutputWrite (render write vs)).

(** The phase [output_till] returns when [rest] is left of the run. *)
Definition phase_for (rest : list Z) : string :=
  match rest with [] => "DONE" | _ :: _ => "LOCK" end.

(** The in-memory state is consistent and [rest] is the part of the run
    from the cursor on. *)
Definition run_left (s : Sys) (rest : list Z) : Prop :=
  0 <= index (state (self s)) <= len (state (self s)) /\
  len (state (self s)) = py_len (data (self s)) /\
  skipn (Z.to_nat (index (state (self s)))) (data (self s)) = rest.

(** Every value of [l1] is at most every value of [l2]. *)
Definition below (l1 l2 : list Z) : Prop :=
  forall u v, In u l1 -> In v l2 -> u <= v.

(** ** The protocol invariant *)

(** The files as each worker of a cluster sees them. *)
Definition view_A (c : Cluster) : Files :=
  mkFiles (b_to_a c) (a_to_b c) (out_file c) (state_a c).
Definition view_B (c : Cluster) : Files :=
  mkFiles (a_to_b c) (b_to_a c) (out_file c) (state_b c).

(** The output holds the sorted merge of the two runs. *)
Definition Finished (x y : list Z) (out : list Piece) : Prop :=
  exists O, out = render false O /\ StronglySorted Z.le O /\ Permutation O (x ++ y).

(** The number of chunks of at most 11 values that [n] values make. *)
Definition chunks (n : nat) : nat := (n + 10) / 11.

(** It is the turn of the worker holding [x], whose files are [fx]; the
    peer holds [y] and its state file is [sy].  The peer's message waits in
    the inbox: its checkpoints [cps] are the values of [y] just before the
    peer's cursor [iy]; [done] tells a [DONE] from an [UNLO] message.  The
    output [O] is sorted, holds the run [x] up to the cursor [ix] and the
    run [y] up to the checkpoints, and lies below everything still to come.
    [mu] counts the chunks not yet announced. *)
Definition Turn (x y : list Z) (fx : Files) (sy : option State)
           (done : bool) (mu : nat) : Prop :=
  exists (ix iy : nat) (flag : bool) (cps ypre O : list Z) (px : string),
    (px = "INIT" \/ px = "LOCK") /\
    persisted x fx = mkState px (Z.of_nat ix) (py_len x) /\
    inbox fx = Some (mkMessage (String (if flag then "T" else "F")
                                       (if done then "DONE" else "UNLO")) cps) /\
    sy = Some (mkState (if done then "DONE" else "LOCK") (Z.of_nat iy) (py_len y)) /\
    (ix <= List.length x)%nat /\
    (iy <= List.length y)%nat /\
    firstn iy y = ypre ++ cps /\
    (if done then iy = List.length y /\ x <> [] else cps <> []) /\
    output fx = render false O /\
    flag = nonempty O /\
    StronglySorted Z.le O /\
    Permutation O (firstn ix x ++ ypre) /\
    below O cps /\
    below O (skipn ix x) /\
    below O (skipn iy y) /\
    mu = (chunks (List.length x - ix) + chunks (List.length y - iy))%nat.

(** The steps a cluster still needs when it is the turn of a worker. *)
Definition steps_needed (done : bool) (mu : nat) : Z :=
  if done then 1 else Z.of_nat mu + 2.

(** ** The counters against the effects *)

Definition is_number_write (e : Event) : bool :=
  match e with EvOutputWrite (Num _) => true | _ => false end.
Definition is_inbox_read (e : Event) : bool :=
  match e with EvInboxRead _ => true | _ => false end.

Definition count_events (p : Event -> bool) (l : list Event) : Z :=
  Z.of_nat (List.length (filter p l)).

(** From [s] to [s'] the log only grew, and every counter of
    [WorkerStats] grew by the number of effects it stands for;
    [comparisons] grew by at most the number of values written. *)
Definition tallied (s s' : Sys) : Prop :=
  exists new,
    log s' = log s ++ new /\
    values_output (stats (self s'))
    = values_output (stats (self s)) + count_events is_number_write new /\
    messages_received (stats (self s'))
    = messages_received (stats (self s)) + count_events is_inbox_read new /\
    messages_sent (stats (self s'))
    = messages_sent (stats (self s)) + count_events is_outbox_write new /\
    comparisons (stats (self s)) <= comparisons (stats (self s'))
    <= comparisons (stats (self s)) + count_events is_number_write new.

(** A computation that keeps the counters in step with its effects. *)
Definition tallies {A} (c : M A) : Prop := forall s, tallied s (fst (c s)).

(** ** Two workers that wait for each other *)

(** Both state files say [LOCK] and both mailboxes are empty: what a crash
    between persisting and sending leaves once the peer has caught up. *)
Definition Waiting (c : Cluster) : Prop :=
  (exists st, state_a c = Some st /\ phase st = "LOCK") /\
  (exists st, state_b c = Some st /\ phase st = "LOCK") /\
  a_to_b c = None /\ b_to_a c = None.

(** The files and the effect log of two clusters agree. *)
Definition same_files (c c' : Cluster) : Prop :=
  a_to_b c' = a_to_b c /\ b_to_a c' = b_to_a c /\ out_file c' = out_file c /\
  state_a c' = state_a c /\ state_b c' = state_b c /\ events c' = events c.

(** Both state files say [DONE]: a merge that was completed. *)
Definition Completed (c : Cluster) : Prop :=
  (exists st, state_a c = Some st /\ phase st = "DONE") /\
  (exists st, state_b c = Some st /\ phase st = "DONE").

(** * Proofs *)

(** ** The monad *)

Lemma bind_ok {A B} (c : M A) (k : A -> M B) s s1 a :
  c s = (s1, Ok a) -> bind c k s = k a s1.
Proof. intros H. unfold bind. now rewrite H. Qed.

(** ** Python lists *)

Lemma py_len_nonneg l : 0 <= py_len l.
Proof. unfold py_len. lia. Qed.

Lemma py_getitem_in_range l i :
  0 <= i < py_len l -> exists v, py_getitem l i = Some v.
Proof.
  intros H. unfold py_getitem.
  replace ((0 <=? i) && (i <? py_len l))%bool with true
    by (symmetry; apply andb_true_iff; split; [apply Z.leb_le | apply Z.ltb_lt]; lia).
  destruct (nth_error l (Z.to_nat i)) eqn:E; [eauto|].
  apply nth_error_None in E. unfold py_len in H. lia.
Qed.

Lemma py_getitem_last l :
  l <> [] -> py_getitem l (-1) = Some (last l 0).
Proof.
  intros Hl. unfold py_getitem.
  assert (Hn : 0 < py_len l).
  { unfold py_len. destruct l; [congruence | cbn; lia]. }
  replace (0 <=? -1) with false by reflexivity. cbn [andb].
  replace ((- py_len l <=? -1) && (-1 <? 0))%bool with true
    by (symmetry; apply andb_true_iff; split; [apply Z.leb_le; lia | reflexivity]).
  destruct (exists_last Hl) as (l' & x & ->).
  rewrite last_last. unfold py_len. rewrite length_app. cbn [List.length].
  replace (Z.to_nat (Z.of_nat (List.length l' + 1) + -1)) with (List.length l' + 0)%nat by lia.
  rewrite nth_error_app2 by lia.
  now replace (List.length l' + 0 - List.length l')%nat with 0%nat by lia.
Qed.

Lemma py_getitem_empty i : py_getitem [] i = None.
Proof.
  unfold py_getitem, py_len. cbn.
  destruct (0 <=? i) eqn:E1, (i <? 0) eqn:E2; cbn; try reflexivity;
    try (now destruct (Z.to_nat i)).
Qed.

(** A slice [l[i : min(n, i + 11)]] never holds more than 11 values,
    whatever [i] is, as long as [n] is not negative. *)
Lemma py_slice_chunk_length l i n :
  0 <= n ->
  (List.length (py_slice l i (Z.min n (i + 11))) <= 11)%nat.
Proof.
  intros Hn0. unfold py_slice. rewrite length_firstn.
  apply Nat.le_trans with (1 := Nat.le_min_l _ _).
  pose proof (py_len_nonneg l) as Hn.
  unfold py_clamp.
  destruct (i <? 0) eqn:Ei, (Z.min n (i + 11) <? 0) eqn:Ej;
    try apply Z.ltb_lt in Ei; try apply Z.ltb_lt in Ej;
    try apply Z.ltb_ge in Ei; try apply Z.ltb_ge in Ej; lia.
Qed.

(** In range, the slice is [firstn]/[skipn]. *)
Lemma py_slice_in_range l i j :
  0 <= i <= j -> j <= py_len l ->
  py_slice l i j = firstn (Z.to_nat (j - i)) (skipn (Z.to_nat i) l).
Proof.
  intros Hi Hj. unfold py_slice, py_clamp.
  replace (i <? 0) with false by (symmetry; apply Z.ltb_ge; lia).
  replace (j <? 0) with false by (symmetry; apply Z.ltb_ge; lia).
  now rewrite !Z.min_l by lia.
Qed.

(** ** Frame and progress of the emission loop *)

Lemma appends_refl s : appends s s.
Proof.
  unfold appends. repeat split; try reflexivity.
  exists []. now rewrite !app_nil_r.
Qed.

Lemma appends_trans s1 s2 s3 : appends s1 s2 -> appends s2 s3 -> appends s1 s3.
Proof.
  intros (Hd & Hi & Ho & Hs & ps & Hp & Hl) (Hd' & Hi' & Ho' & Hs' & ps' & Hp' & Hl').
  unfold appends. repeat split; try congruence.
  exists (ps ++ ps'). rewrite Hp', Hp, Hl', Hl, map_app, !app_assoc. now split.
Qed.

Lemma advances_refl st : advances st st.
Proof. unfold advances. repeat split; auto; lia. Qed.

Lemma advances_trans st1 st2 st3 :
  advances st1 st2 -> advances st2 st3 -> advances st1 st3.
Proof.
  intros (Hl & Hi & Hb & Hp) (Hl' & Hi' & Hb' & Hp').
  unfold advances. repeat split.
  - congruence.
  - lia.
  - intros H. rewrite Hl in Hb'. apply Hb'. auto.
  - destruct Hp' as [Hp' | Hp']; [rewrite Hp'; exact Hp | auto].
Qed.

Lemma evolves_refl s : evolves s s.
Proof. split; [apply appends_refl | apply advances_refl]. Qed.

Lemma evolves_trans s1 s2 s3 : evolves s1 s2 -> evolves s2 s3 -> evolves s1 s3.
Proof.
  intros [Ha Hb] [Ha' Hb'].
  split; [eapply appends_trans | eapply advances_trans]; eassumption.
Qed.

Lemma appends_append s p : appends s (fst (append_output p s)).
Proof.
  unfold appends, append_output; cbn. repeat split.
  now exists [p].
Qed.

(** The files and the log only matter to [appends] through [fs] and [log]. *)
Lemma appends_self s w :
  data w = data (self s) -> appends s (mkSys w (fs s) (log s)).
Proof.
  intros H. unfold appends; cbn. repeat split; auto.
  exists []. now rewrite !app_nil_r.
Qed.

Ltac step_prims :=
  unfold data_at, set_phase, set_index, get_data, get_state, set_state, set_stats,
         append_output, _save_state, write_msg, bind, ret, raise;
  cbn [fst snd self fs log data state stats phase index len
       inbox outbox output state_file].

(** [output_loop] appends to the output and touches nothing else; the local
    index it returns moved forward and stopped at [count]; within the list
    it cannot raise. *)
Lemma output_loop_spec fuel : forall max_v idx count write s,
  exists s' r, output_loop fuel max_v idx count write s = (s', r) /\
    appends s s' /\ state (self s') = state (self s) /\
    match r with
    | Ok (idx', _) => idx <= idx' /\ (idx <= count -> idx' <= count)
    | Raise e => e = IndexError
    end /\
    (0 <= idx -> count <= py_len (data (self s)) -> exists v, r = Ok v).
Proof.
  induction fuel as [|fuel IH]; intros max_v idx count write s.
  - cbn. eexists _, _. split; [reflexivity|].
    repeat split; [apply appends_refl | lia | auto | eauto].
  - cbn [output_loop].
    destruct (idx <? count) eqn:Elt.
    2:{ eexists _, _. split; [reflexivity|].
        repeat split; [apply appends_refl | lia | auto | eauto]. }
    apply Z.ltb_lt in Elt.
    step_prims.
    destruct (py_getitem (data (self s)) idx) as [v|] eqn:Ev.
    2:{ step_prims. eexists _, _. split; [reflexivity|].
        repeat split; [apply appends_refl | ].
        intros H0 Hc. destruct (py_getitem_in_range (data (self s)) idx) as [v Hv]; [lia|].
        congruence. }
    step_prims.
    destruct (v <? max_v) eqn:Ecmp.
    2:{ step_prims. eexists _, _. split; [reflexivity|].
        repeat split; [apply appends_refl | lia | lia | eauto]. }
    assert (Hgo : forall s1, appends s s1 -> state (self s1) = state (self s) ->
              exists s' r, output_loop fuel max_v (idx + 1) count true s1 = (s', r) /\
                appends s s' /\ state (self s') = state (self s) /\
                match r with
                | Ok (idx', _) => idx <= idx' /\ (idx <= count -> idx' <= count)
                | Raise e => e = IndexError
                end /\
                (0 <= idx -> count <= py_len (data (self s)) -> exists v, r = Ok v)).
    { intros s1 Happ1 Hst1.
      destruct (IH max_v (idx + 1) count true s1) as (s' & r & E & Happ & Hst & Hr & Hok).
      exists s', r. split; [exact E|].
      split; [eapply appends_trans; eassumption|].
      split; [congruence|].
      split.
      - destruct r as [[idx' w']|e]; [lia | exact Hr].
      - intros H0 Hc. apply Hok; [lia|].
        destruct Happ1 as (Hd1 & _). now rewrite Hd1. }
    destruct write; step_prims; apply Hgo; try reflexivity.
    + unfold appends; cbn. repeat split.
      exists [Sep; Num v]. now rewrite <- !app_assoc.
    + unfold appends; cbn. repeat split.
      now exists [Num v].
Qed.

Lemma evolves_in_bounds s s' : evolves s s' -> in_bounds s -> in_bounds s'.
Proof.
  intros [(Hd & _) (Hl & Hi & _)] [H0 H1]. unfold in_bounds.
  rewrite Hd, Hl. split; lia.
Qed.

Lemma output_till_spec max_v include write s :
  exists s' r, output_till max_v include write s = (s', r) /\
    evolves s s' /\
    phase (state (self s')) = phase (state (self s)) /\
    match r with
    | Ok (p, _) => p = "LOCK" \/ p = "DONE"
    | Raise e => e = IndexError
    end /\
    (in_bounds s -> exists v, r = Ok v).
Proof.
  unfold output_till. step_prims.
  destruct (output_loop_spec (Z.to_nat (len (state (self s)) - index (state (self s))))
              max_v (index (state (self s))) (len (state (self s))) write s)
    as (s1 & r1 & E & Happ & Hst & Hr & Hok).
  rewrite E.
  destruct r1 as [[idx' w']|e].
  2:{ eexists _, _. split; [reflexivity|].
      split; [split; [exact Happ | rewrite Hst; apply advances_refl]|].
      split; [now rewrite Hst|].
      split; [exact Hr|].
      intros [H0 H1]. destruct (Hok H0 H1) as [v Hv]. discriminate. }
  destruct Hr as [Hlo Hhi].
  destruct include, w'; step_prims;
    destruct (len (state (self s)) <=? idx');
    (eexists _, _; split; [reflexivity|]);
    cbn [self state phase index len];
    (split; [split|split; [now rewrite Hst|split; [auto|eauto]]]);
    try (unfold advances; cbn [phase index len]; rewrite Hst; repeat split; auto; lia);
    destruct Happ as (Hd & Hi & Ho & Hs & ps & Hp & Hl);
    unfold appends; cbn; repeat split; auto.
  - exists (ps ++ [Sep; Num max_v]). rewrite Hp, Hl, map_app, <- !app_assoc. now split.
  - exists (ps ++ [Sep; Num max_v]). rewrite Hp, Hl, map_app, <- !app_assoc. now split.
  - exists (ps ++ [Num max_v]). rewrite Hp, Hl, map_app, <- !app_assoc. now split.
  - exists (ps ++ [Num max_v]). rewrite Hp, Hl, map_app, <- !app_assoc. now split.
  - now exists ps.
  - now exists ps.
  - now exists ps.
  - now exists ps.
Qed.

Lemma evolves_set s st' t :
  advances (state (self s)) st' ->
  evolves s (mkSys (mkWorker (data (self s)) st' t) (fs s) (log s)).
Proof. intros H. split; [now apply appends_self | exact H]. Qed.

Lemma advances_phase st p :
  p = "LOCK" \/ p = "DONE" -> advances st (mkState p (index st) (len st)).
Proof. intros H. unfold advances; cbn. repeat split; auto; lia. Qed.

Lemma advances_chunk st p :
  index st <= len st ->
  p = phase st \/ p = "LOCK" \/ p = "DONE" ->
  advances st (mkState p (Z.min (len st) (index st + 11)) (len st)).
Proof. intros Hi H. unfold advances; cbn. repeat split; auto; lia. Qed.

Lemma emit_checkpoints_spec vs : forall write s,
  exists s' r, emit_checkpoints vs write s = (s', r) /\
    evolves s s' /\
    match r with Ok _ => True | Raise e => e = IndexError end /\
    (in_bounds s -> exists v, r = Ok v).
Proof.
  induction vs as [|i vs IH]; intros write s.
  - cbn. eexists _, _. split; [reflexivity|].
    split; [apply evolves_refl | eauto].
  - cbn [emit_checkpoints]. unfold bind at 1.
    destruct (output_till_spec i true write s) as (s1 & r1 & E & Hev & Hph & Hr & Hok).
    rewrite E. destruct r1 as [[p w1]|e].
    2:{ eexists _, _. split; [reflexivity|]. split; [exact Hev|]. split; [exact Hr|].
        intros Hb. destruct (Hok Hb) as [v Hv]. discriminate. }
    step_prims.
    match goal with
    | |- context [emit_checkpoints vs w1 ?s0] =>
        destruct (IH w1 s0) as (s2 & r2 & E2 & Hev2 & Hr2 & Hok2);
        assert (Hev1 : evolves s s0)
          by (eapply evolves_trans; [exact Hev | apply evolves_set, advances_phase, Hr])
    end.
    exists s2, r2. split; [exact E2|].
    split; [eapply evolves_trans; eassumption|].
    split; [exact Hr2|].
    intros Hb. apply Hok2. eapply evolves_in_bounds; eassumption.
Qed.

Lemma build_message_spec write inbox s :
  exists s' r, build_message write inbox s = (s', r) /\
    appends s s' /\
    (index (state (self s)) <= len (state (self s)) ->
     advances (state (self s)) (state (self s'))) /\
    match r with
    | Ok (Some m, _) =>
        chunk_of (data (self s)) (state (self s)) (state (self s')) inbox m
    | Ok (None, _) => phase (state (self s)) = "DONE"
    | Raise e => e = IndexError
    end /\
    (in_bounds s ->
     (inbox_is inbox "DONE" = true -> data (self s) <> []) ->
     exists v, r = Ok v).
Proof.
  unfold build_message. unfold bind at 1, get_state at 1.
  destruct (String.eqb (phase (state (self s))) "INIT" && negb (is_some inbox))%bool eqn:Efirst.
  { (* first move *)
    step_prims.
    destruct (len (state (self s)) <=? Z.min (len (state (self s))) (index (state (self s)) + 11));
      (eexists _, _; split; [reflexivity|]);
      (split; [apply (appends_self s); reflexivity|]);
      cbn [self state phase index len];
      (split; [intros Hi; apply (advances_chunk (state (self s))); auto|]);
      (split; [|eauto]);
      right; (split; [apply andb_true_iff in Efirst as [_ Hn];
                       destruct inbox; [discriminate | reflexivity]|]);
      exists (index (state (self s))); cbn; repeat split; auto; lia. }
  destruct (inbox_is inbox "DONE") eqn:Edone.
  { (* peer finished *)
    destruct (String.eqb (phase (state (self s))) "DONE") eqn:Eph.
    { apply String.eqb_eq in Eph.
      eexists _, _. split; [reflexivity|].
      split; [apply appends_refl|]. split; [intros; apply advances_refl|].
      split; [exact Eph|eauto]. }
    unfold bind at 1.
    destruct (emit_checkpoints_spec
                (match inbox with Some m => values m | None => [] end) write s)
      as (s1 & r1 & E1 & Hev1 & Hr1 & Hok1).
    rewrite E1. destruct r1 as [w1|e].
    2:{ eexists _, _. split; [reflexivity|].
        split; [apply Hev1|]. split; [intros; apply Hev1|]. split; [exact Hr1|].
        intros Hb _. destruct (Hok1 Hb) as [v Hv]. discriminate. }
    step_prims.
    destruct (py_getitem (data (self s1)) (-1)) as [lastv|] eqn:Elast.
    2:{ eexists _, _. split; [reflexivity|].
        split; [apply Hev1|]. split; [intros; apply Hev1|]. split; [reflexivity|].
        intros Hb Hne. specialize (Hne eq_refl).
        destruct Hev1 as [(Hd & _) _]. rewrite Hd in Elast.
        rewrite (py_getitem_last _ Hne) in Elast. discriminate. }
    destruct (output_till_spec (lastv + 1) false w1 s1)
      as (s2 & r2 & E2 & Hev2 & Hph2 & Hr2 & Hok2).
    rewrite E2. destruct r2 as [[p w2]|e].
    2:{ eexists _, _. split; [reflexivity|].
        assert (Hev : evolves s s2) by (eapply evolves_trans; eassumption).
        split; [apply Hev|]. split; [intros; apply Hev|]. split; [exact Hr2|].
        intros Hb _. destruct Hok2 as [v Hv]; [|discriminate].
        eapply evolves_in_bounds; eassumption. }
    eexists _, _. split; [reflexivity|].
    assert (Hev : evolves s (mkSys (mkWorker (data (self s2))
                                      (mkState p (index (state (self s2))) (len (state (self s2))))
                                      (stats (self s2))) (fs s2) (log s2))).
    { eapply evolves_trans; [exact Hev1|].
      eapply evolves_trans; [exact Hev2|].
      apply evolves_set, advances_phase, Hr2. }
    split; [apply Hev|]. split; [intros; apply Hev|].
    split; [left; auto | eauto]. }
  (* steady state *)
  unfold bind at 1.
  destruct (emit_checkpoints_spec
              (match inbox with Some m => values m | None => [] end) write s)
    as (s1 & r1 & E1 & Hev1 & Hr1 & Hok1).
  rewrite E1. destruct r1 as [w1|e].
  2:{ eexists _, _. split; [reflexivity|].
      split; [apply Hev1|]. split; [intros; apply Hev1|]. split; [exact Hr1|].
      intros Hb _. destruct (Hok1 Hb) as [v Hv]. discriminate. }
  step_prims.
  destruct Hev1 as [Happ1 Hadv1].
  pose proof Happ1 as (Hd1 & _). pose proof Hadv1 as (Hl1 & Hi1 & Hb1 & Hp1).
  destruct (negb (String.eqb (phase (state (self s1))) "DONE")) eqn:Eph;
    (eexists _, _; split; [reflexivity|]);
    (split; [eapply appends_trans; [exact Happ1 | apply (appends_self s1); reflexivity]|]);
    cbn [self state phase index len];
    (split; [intros Hi; eapply advances_trans; [exact Hadv1|];
             apply (advances_chunk (state (self s1))); [rewrite Hl1; auto | auto]|]);
    (split; [|eauto]);
    right; (split; [exact Edone|]);
    exists (index (state (self s1))); cbn; rewrite Hd1, Hl1; repeat split; auto.
Qed.
Lemma step_send_some m0 w ib s1 :
  step_send (Some m0) w ib s1 =
  (mkSys (mkWorker (data (self s1)) (state (self s1)) (inc_sent (stats (self s1))))
         (mkFiles (inbox (fs s1)) (Some (stamp w m0)) (output (fs s1)) (state_file (fs s1)))
         (log s1 ++ [EvOutboxWrite (stamp w m0)]),
   Ok (negb (String.eqb (phase (state (self s1))) "DONE"))).
Proof.
  unfold step_send. step_prims. fold (stamp w m0).
  destruct (String.eqb (phase (state (self s1))) "DONE") eqn:E; cbn [negb].
  - reflexivity.
  - rewrite andb_false_r. reflexivity.
Qed.

Lemma step_branches_spec write ib s :
  exists s0 r, build_message write ib s = (s0, r) /\
    appends s s0 /\
    (index (state (self s)) <= len (state (self s)) ->
     advances (state (self s)) (state (self s0))) /\
    match r with
    | Ok (msg, w) =>
        step_branches write ib s =
          (mkSys (self s0)
                 (mkFiles (inbox (fs s0)) (outbox (fs s0)) (output (fs s0))
                          (Some (state (self s0))))
                 (log s0 ++ [EvStateSave (state (self s0))]), Ok (msg, w)) /\
        match msg with
        | Some m => chunk_of (data (self s)) (state (self s)) (state (self s0)) ib m
        | None => phase (state (self s)) = "DONE"
        end
    | Raise e => e = IndexError /\ step_branches write ib s = (s0, Raise e)
    end /\
    (in_bounds s ->
     (inbox_is ib "DONE" = true -> data (self s) <> []) ->
     exists v, r = Ok v).
Proof.
  destruct (build_message_spec write ib s) as (s0 & r & E & Happ & Hadv & Hr & Hok).
  exists s0, r. split; [exact E|]. split; [exact Happ|]. split; [exact Hadv|].
  split; [|exact Hok].
  unfold step_branches, bind. rewrite E.
  destruct r as [[msg w]|e].
  - split; [reflexivity | exact Hr].
  - split; [exact Hr | reflexivity].
Qed.

Lemma load_state_eq w f lg :
  _load_state (mkSys w f lg) = (mkSys w f lg, Ok (persisted (data w) f)).
Proof. unfold _load_state, persisted. cbn. now destruct (state_file f). Qed.

Ltac finish_step Hnd :=
  match goal with
  | |- context [step_branches ?wr ?ib ?s0] =>
      let s1 := fresh "s1" in let r1 := fresh "r1" in
      let E := fresh "E" in let Happ := fresh "Happ" in
      let Hadv := fresh "Hadv" in let Hr := fresh "Hr" in
      let Hok := fresh "Hok" in
      destruct (step_branches_spec wr ib s0) as (s1 & r1 & E & Happ & Hadv & Hr & Hok);
      destruct Happ as (Hd1 & Hi1 & Ho1 & Hs1 & ps & Hp1 & Hl1);
      cbn [self fs log data stats state inbox outbox output state_file phase index len] in *;
      destruct r1 as [[[m0|] w1]|e];
      [ destruct Hr as [Hr Hchunk]; rewrite Hr; cbn [ret]; rewrite step_send_some;
        cbn [self fs log data stats state inbox outbox output state_file];
        intros H; injection H as <- <-;
        match goal with
        | |- StepOutcome _ _ _ ?s _ => apply (out_sent _ _ _ s ps m0 w1)
        end
      | destruct Hr as [_ Hchunk];
        first [discriminate Hchunk | exfalso; apply Hnd; exact Hchunk]
      | destruct Hr as [-> Hr]; rewrite Hr;
        intros H; injection H as <- <-;
        apply (out_raised _ _ _ _ ps) ]
  end.

Lemma files_eta f : f = mkFiles (inbox f) (outbox f) (output f) (state_file f).
Proof. now destruct f. Qed.

Lemma raise_cause (f : Files) (d : list Z) (o : option Message) :
  inbox f = o ->
  ((inbox_is (option_map strip_flag o) "DONE" = true -> d <> []) -> False) ->
  exists m, inbox f = Some m /\
            (msg_type m = EmptyString \/
             (inbox_is (Some (strip_flag m)) "DONE" = true /\ d = [])).
Proof.
  intros Ein H. destruct o as [m|]; cbn [option_map] in H.
  - exists m. split; [exact Ein|]. right.
    destruct (inbox_is (Some (strip_flag m)) "DONE") eqn:E.
    + split; [reflexivity|]. destruct d; [reflexivity|].
      exfalso. apply H. intros _. discriminate.
    + exfalso. apply H. intros Hd. congruence.
  - exfalso. apply H. intros Hd. discriminate.
Qed.

Ltac close_outcome :=
  try match goal with st := _ |- _ => subst st end;
  cbn [self fs log data stats state inbox outbox output state_file phase index len] in *;
  match goal with
  | |- data _ = data _ => assumption
  | |- _ <> "DONE" => assumption
  | Hi : inbox (fs ?s1) = _, Ho : outbox (fs ?s1) = _,
    Hp : output (fs ?s1) = _, Hs : state_file (fs ?s1) = _
    |- mkFiles _ _ _ _ = mkFiles _ _ _ _ =>
      rewrite ?Hi, ?Hp; try reflexivity; f_equal; assumption
  | Hi : inbox (fs ?s1) = _, Ho : outbox (fs ?s1) = _,
    Hp : output (fs ?s1) = _, Hs : state_file (fs ?s1) = _
    |- fs ?s1 = mkFiles _ _ _ _ =>
      rewrite (files_eta (fs s1)), Hi, Ho, Hp, Hs; try reflexivity; f_equal; assumption
  | Hl : log ?s1 = _, Ein : inbox ?f = _ |- context [reads ?f] =>
      rewrite Hl; unfold reads; rewrite Ein; cbn [app]; rewrite <- ?app_assoc; reflexivity
  | Hadv : _ -> advances _ _, Elock : String.eqb _ "LOCK" = _ |- _ -> advances _ _ =>
      unfold unlocked; rewrite Elock; exact Hadv
  | Hchunk : chunk_of _ _ _ _ _, Ein : inbox ?f = _ |- chunk_of _ _ _ _ _ =>
      unfold chunk_of in *; rewrite Ein; cbn [option_map index len] in *; exact Hchunk
  | Hok : in_bounds _ -> _, Ein : inbox ?f = _ |- _ -> _ -> exists m, inbox ?f = Some m /\ _ =>
      let H0 := fresh in let H1 := fresh in
      intros H0 H1; apply raise_cause with (1 := Ein); intros Hne;
      destruct Hok as [v Hv]; [split; cbn; assumption | exact Hne | discriminate Hv]
  end.

Lemma step_outcome w f lg s' r :
  step (mkSys w f lg) = (s', r) -> StepOutcome w f lg s' r.
Proof.
  unfold step, step_compute, bind.
  rewrite load_state_eq. unfold set_state at 1. cbn [self fs log data stats].
  set (st := persisted (data w) f).
  destruct (String.eqb (phase st) "DONE") eqn:Edone.
  { cbn. intros H; injection H as <- <-. apply out_done. now apply String.eqb_eq. }
  assert (Hnd : phase st <> "DONE") by (now apply String.eqb_neq).
  unfold read_inbox. cbn [self fs log data stats state inbox outbox output state_file].
  destruct (inbox f) as [m|] eqn:Ein.
  - unfold split_flag at 1. destruct (msg_type m) as [|c rest] eqn:Etag.
    { cbn. intros H; injection H as <- <-.
      apply (out_raised _ _ _ _ []); cbn; auto.
      - now rewrite app_nil_r.
      - unfold reads. rewrite Ein. now rewrite app_nil_r.
      - intros _ _. exists m. auto. }
    cbn [ret].
    assert (Hstrip : strip_flag m = mkMessage rest (values m)).
    { unfold strip_flag. now rewrite Etag. }
    rewrite <- Hstrip.
    destruct (String.eqb (phase st) "LOCK") eqn:Elock.
    + destruct (is_some (Some (strip_flag m))
                && (inbox_is (Some (strip_flag m)) "DONE"
                    || inbox_is (Some (strip_flag m)) "UNLO"))%bool eqn:Eun.
      * unfold set_phase, get_state, set_state, bind.
        cbn [self fs log data stats state inbox outbox output state_file phase index len].
        finish_step Hnd; close_outcome.
      * cbn [ret]. intros H; injection H as <- <-.
        cbn [is_some andb] in Eun. apply orb_false_iff in Eun as [E1 E2].
        apply out_ignored; auto. now apply String.eqb_eq.
    + finish_step Hnd; close_outcome.
  - unfold split_flag at 1. cbn [ret].
    destruct (String.eqb (phase st) "LOCK") eqn:Elock.
    + cbn. intros H; injection H as <- <-.
      apply out_wait; auto. now apply String.eqb_eq.
    + finish_step Hnd; close_outcome.
Qed.

(** ** Steps without effect *)

(** C8.  A worker whose persisted phase is [DONE] returns [False] at once:
    the files (inbox, outbox, output, state file) are the ones it found, no
    effect is logged, the counters are untouched. *)
Theorem finished_step_is_noop w f lg :
  phase (persisted (data w) f) = "DONE" ->
  step (mkSys w f lg)
  = (mkSys (mkWorker (data w) (persisted (data w) f) (stats w)) f lg, Ok false).
Proof.
  intros Hp. unfold step, step_compute, bind.
  rewrite load_state_eq. unfold set_state at 1. cbn [self fs log data stats].
  rewrite Hp. reflexivity.
Qed.

Lemma finished_step_is_noop_witness :
  let w := mkWorker [1; 2; 3] (mkState "INIT" 0 3) (mkStats 4 1 1 3) in
  let f := mkFiles (Some (mkMessage "TUNLO" [7; 8])) None [Num 1; Sep; Num 2]
                   (Some (mkState "DONE" 3 3)) in
  step (mkSys w f [])
  = (mkSys (mkWorker [1; 2; 3] (mkState "DONE" 3 3) (mkStats 4 1 1 3)) f [], Ok false).
Proof.
  intros w f.
  exact (finished_step_is_noop w f [] eq_refl).
Defined.

(** C5.  A worker whose persisted phase is [LOCK] and whose inbox file does
    not exist returns [True]; nothing is appended to the output, the outbox
    and the state file are not written, no effect is logged. *)
Theorem locked_without_message_is_noop w f lg :
  phase (persisted (data w) f) = "LOCK" ->
  inbox f = None ->
  step (mkSys w f lg)
  = (mkSys (mkWorker (data w) (persisted (data w) f) (stats w)) f lg, Ok true).
Proof.
  intros Hp Hin. unfold step, step_compute, bind.
  rewrite load_state_eq. unfold set_state at 1. cbn [self fs log data stats].
  assert (Hd : String.eqb (phase (persisted (data w) f)) "DONE" = false)
    by (rewrite Hp; reflexivity).
  assert (Hl : String.eqb (phase (persisted (data w) f)) "LOCK" = true)
    by (rewrite Hp; reflexivity).
  rewrite Hd. unfold read_inbox. cbn [self fs log data stats state].
  rewrite Hin. unfold split_flag. cbn [ret]. rewrite Hl. reflexivity.
Qed.

Lemma locked_without_message_is_noop_witness :
  let w := mkWorker (range 0 20 1) (mkState "INIT" 0 20) (mkStats 0 1 0 0) in
  let f := mkFiles None (Some (mkMessage "FUNLO" (range 0 11 1))) []
                   (Some (mkState "LOCK" 11 20)) in
  step (mkSys w f [])
  = (mkSys (mkWorker (range 0 20 1) (mkState "LOCK" 11 20) (mkStats 0 1 0 0)) f [], Ok true).
Proof.
  intros w f.
  exact (locked_without_message_is_noop w f [] eq_refl eq_refl).
Defined.

(** ** Invariant of the persisted state *)

Lemma persisted_same d f f' :
  state_file f' = state_file f -> persisted d f' = persisted d f.
Proof. unfold persisted. now intros ->. Qed.

(** The state of a worker that has no state file yet is consistent. *)
Lemma fresh_state_wf d f : state_file f = None -> wf_state d (persisted d f).
Proof.
  intros H. unfold persisted. rewrite H.
  unfold wf_state, known_phase; cbn. pose proof (py_len_nonneg d). auto with zarith.
Qed.

Lemma known_unlocked st : known_phase (phase st) -> known_phase (phase (unlocked st)).
Proof.
  unfold unlocked. destruct (String.eqb (phase st) "LOCK"); [|auto].
  intros _. cbn. unfold known_phase. auto.
Qed.

Lemma unlocked_index st : index (unlocked st) = index st.
Proof. unfold unlocked. now destruct (String.eqb (phase st) "LOCK"). Qed.

Lemma unlocked_len st : len (unlocked st) = len st.
Proof. unfold unlocked. now destruct (String.eqb (phase st) "LOCK"). Qed.

(** C10.  One [step()] keeps the persisted state consistent: the cursor
    stays between 0 and [len], [len] stays the length of the run, the phase
    is one of the four, and the cursor did not move back. *)
Theorem step_preserves_wf_state w f lg s' r :
  wf_state (data w) (persisted (data w) f) ->
  step (mkSys w f lg) = (s', r) ->
  wf_state (data w) (persisted (data w) (fs s')) /\
  index (persisted (data w) f) <= index (persisted (data w) (fs s')).
Proof.
  intros Hwf E. apply step_outcome in E.
  inversion E as [ Hp | Hp Hin | m Hp Hin H1 H2 | s0 ps Hd Hfs Hl Hc
                 | s0 ps m0 wr Hd Hp Hfs Hl Hadv Hch ]; subst; cbn [fs].
  - split; [exact Hwf | lia].
  - split; [exact Hwf | lia].
  - rewrite (persisted_same (data w) f) by reflexivity. split; [exact Hwf | lia].
  - rewrite (persisted_same (data w) f) by (now rewrite Hfs). split; [exact Hwf | lia].
  - assert (Hps : persisted (data w) (fs s') = state (self s')).
    { unfold persisted. now rewrite Hfs. }
    rewrite Hps.
    destruct Hwf as (Hi & Hlen & Hk).
    destruct Hadv as (Hl' & Hi' & Hb' & Hp'); [lia|].
    rewrite unlocked_index, unlocked_len in *.
    split; [|exact Hi'].
    unfold wf_state. rewrite Hl'. split; [lia|]. split; [exact Hlen|].
    destruct Hp' as [Hp' | [Hp' | Hp']]; rewrite Hp'.
    + now apply known_unlocked.
    + unfold known_phase; auto.
    + unfold known_phase; auto.
Qed.

Lemma step_preserves_wf_state_witness :
  let w := new_worker (range 0 20 1) no_files in
  let s' := fst (step (mkSys w no_files [])) in
  wf_state (data w) (persisted (data w) (fs s')) /\
  index (persisted (data w) no_files) <= index (persisted (data w) (fs s')).
Proof.
  intros w s'.
  apply (step_preserves_wf_state w no_files [] s' (snd (step (mkSys w no_files [])))).
  - unfold wf_state, known_phase. cbn. repeat split; auto; lia.
  - reflexivity.
Defined.

(** ** The messages a step writes *)

Lemma in_outbox_write_tail m (evs : list Event) (ps : list Piece) (tl : list Event) :
  Forall (fun e => is_outbox_write e = false) evs ->
  In (EvOutboxWrite m) (evs ++ map EvOutputWrite ps ++ tl) ->
  In (EvOutboxWrite m) tl.
Proof.
  intros Hevs Hin. apply in_app_or in Hin as [Hin | Hin].
  - rewrite Forall_forall in Hevs. apply Hevs in Hin. discriminate.
  - apply in_app_or in Hin as [Hin | Hin]; [|exact Hin].
    apply in_map_iff in Hin as (p & Hp & _). discriminate.
Qed.

Lemma reads_not_writes f : Forall (fun e => is_outbox_write e = false) (reads f).
Proof. unfold reads. destruct (inbox f); repeat constructor. Qed.

(** The only message a step puts in the outbox is the one the branches
    built, stamped. *)
Lemma sent_message_of_step w f s' r m :
  step (mkSys w f []) = (s', r) ->
  In (EvOutboxWrite m) (log s') ->
  exists m0 wr ps,
    m = stamp wr m0 /\
    chunk_of (data w) (persisted (data w) f) (state (self s'))
             (option_map strip_flag (inbox f)) m0 /\
    (index (persisted (data w) f) <= len (persisted (data w) f) ->
     advances (unlocked (persisted (data w) f)) (state (self s'))) /\
    fs s' = mkFiles None (Some m) (output f ++ ps) (Some (state (self s'))) /\
    log s' = reads f ++ map EvOutputWrite ps ++ [EvStateSave (state (self s')); EvOutboxWrite m].
Proof.
  intros E Hin. apply step_outcome in E.
  inversion E as [ Hp | Hp Hi | mi Hp Hi H1 H2 | s0 ps Hd Hfs Hl Hc
                 | s0 ps m0 wr Hd Hp Hfs Hl Hadv Hch ]; subst.
  - destruct Hin.
  - destruct Hin.
  - cbn in Hin. destruct Hin as [Hin | []]. discriminate.
  - rewrite Hl in Hin. cbn [app] in Hin.
    replace (map EvOutputWrite ps) with (map EvOutputWrite ps ++ []) in Hin
      by apply app_nil_r.
    apply in_outbox_write_tail in Hin; [destruct Hin | apply reads_not_writes].
  - rewrite Hl in Hin. cbn [app] in Hin.
    apply in_outbox_write_tail in Hin; [|apply reads_not_writes].
    destruct Hin as [Hin | [Hin | []]]; [discriminate|].
    injection Hin as <-.
    exists m0, wr, ps.
    split; [reflexivity|]. split; [exact Hch|]. split; [exact Hadv|].
    split; [exact Hfs | exact Hl].
Qed.

(** C9.  A message written to the outbox carries at most 11 integers.  The
    reply to a [DONE] message carries none; any other message carries the
    values of the run from a position [i], at or after the old cursor, up
    to the new cursor [min(len, i + 11)]. *)
Theorem outbox_chunk_at_most_11 w f s' r m :
  wf_state (data w) (persisted (data w) f) ->
  step (mkSys w f []) = (s', r) ->
  In (EvOutboxWrite m) (log s') ->
  (List.length (values m) <= 11)%nat /\
  (inbox_is (option_map strip_flag (inbox f)) "DONE" = true -> values m = []) /\
  (inbox_is (option_map strip_flag (inbox f)) "DONE" = false ->
   exists i,
     index (persisted (data w) f) <= i <= len (persisted (data w) f) /\
     index (persisted (data w) (fs s')) = Z.min (len (persisted (data w) f)) (i + 11) /\
     values m = firstn (Z.to_nat (index (persisted (data w) (fs s')) - i))
                       (skipn (Z.to_nat i) (data w))).
Proof.
  intros (Hi & Hlen & Hk) E Hin.
  destruct (sent_message_of_step _ _ _ _ _ E Hin)
    as (m0 & wr & ps & -> & Hch & _ & Hfs & _).
  assert (Hps : persisted (data w) (fs s') = state (self s')).
  { unfold persisted. now rewrite Hfs. }
  rewrite Hps. cbn [stamp values].
  destruct Hch as [[Hd ->] | (Hnd & i & Hlo & Hhi & Hidx & Hval & _)].
  - split; [cbn; lia|]. split; [reflexivity | congruence].
  - specialize (Hhi (proj2 Hi)).
    split.
    { rewrite Hval, Hidx. apply py_slice_chunk_length. lia. }
    split; [congruence|]. intros _.
    exists i. split; [lia|]. split; [exact Hidx|].
    rewrite Hval. apply py_slice_in_range; lia.
Qed.

Lemma outbox_chunk_at_most_11_witness :
  let w := new_worker (range 0 30 1) no_files in
  let m := mkMessage "FUNLO" (range 0 11 1) in
  (List.length (values m) <= 11)%nat.
Proof.
  intros w m.
  refine (proj1 (outbox_chunk_at_most_11 w no_files
                   (fst (step (mkSys w no_files []))) (snd (step (mkSys w no_files [])))
                   m _ eq_refl _)).
  - unfold wf_state, known_phase. cbn. repeat split; auto; lia.
  - cbn. auto.
Defined.

(** ** Persisting before sending *)

Lemma step_branches_saved wr ib s0 s2 msg w0 :
  step_branches wr ib s0 = (s2, Ok (msg, w0)) ->
  outbox (fs s2) = outbox (fs s0) /\ state_file (fs s2) = Some (state (self s2)).
Proof.
  destruct (step_branches_spec wr ib s0) as (s1 & r1 & _ & Happ & _ & Hr & _).
  destruct r1 as [[msg1 w1]|e].
  - destruct Hr as [-> _]. intros H; injection H as <- _ _.
    cbn. destruct Happ as (_ & _ & Ho & _). split; [exact Ho | reflexivity].
  - destruct Hr as [_ ->]. discriminate.
Qed.

Ltac saved_branch :=
  match goal with
  | |- context [step_branches ?a ?b ?c] =>
      let Eb := fresh "Eb" in
      destruct (step_branches a b c) as [? [[? ?]|?]] eqn:Eb;
      [ cbn [ret]; intros H; injection H as <- <- <- <-;
        apply step_branches_saved in Eb; cbn in Eb; exact Eb
      | discriminate ]
  end.

(** Where [step] stands right after [self._save_state()]: the outbox is
    still the old one and the state file already holds the new state. *)
Lemma step_compute_saved w f lg s1 msg wr ib :
  step_compute (mkSys w f lg) = (s1, Ok (inr (msg, wr, ib))) ->
  outbox (fs s1) = outbox f /\ state_file (fs s1) = Some (state (self s1)).
Proof.
  unfold step_compute, bind.
  rewrite load_state_eq. unfold set_state at 1. cbn [self fs log data stats].
  destruct (String.eqb (phase (persisted (data w) f)) "DONE"); [discriminate|].
  unfold read_inbox. cbn [self fs log data stats state inbox outbox output state_file].
  destruct (inbox f) as [m|]; unfold split_flag at 1.
  - destruct (msg_type m) as [|c rest]; [discriminate|]. cbn [ret].
    destruct (String.eqb (phase (persisted (data w) f)) "LOCK").
    + destruct (is_some _ && _)%bool; [|discriminate].
      unfold set_phase, get_state, set_state, bind.
      cbn [self fs log data stats state inbox outbox output state_file phase index len].
      saved_branch.
    + saved_branch.
  - cbn [ret].
    destruct (String.eqb (phase (persisted (data w) f)) "LOCK"); [discriminate|].
    saved_branch.
Qed.

Lemma step_after_compute s s1 msg wr ib :
  step_compute s = (s1, Ok (inr (msg, wr, ib))) ->
  step s = step_send msg wr ib s1.
Proof. intros H. unfold step. now rewrite (bind_ok _ _ _ _ _ H). Qed.

(** C6, as stated, fails: a worker holding twelve values crashes after
    saving phase [LOCK] and before writing its first chunk; resumed, it
    waits for the reply to a chunk that is in no outbox. *)
Lemma crash_after_save_loses_the_chunk : ~ persist_then_send_claim.
Proof.
  intros [_ H].
  specialize (H (new_worker (range 0 12 1) no_files) no_files
                (mkFiles None None [] (Some (mkState "LOCK" 11 12)))
                (mkMessage "FUNLO" (range 0 11 1)) eq_refl eq_refl).
  discriminate H.
Qed.

(** C6, amended.  A step that writes the outbox saves the state in the
    event just before, and does each once, after all its other effects.
    A crash between the two leaves the state file as the completed step
    leaves it and the outbox as it was before the step. *)
Theorem state_saved_before_message_sent w f :
  (forall s' r m,
      step (mkSys w f []) = (s', r) ->
      In (EvOutboxWrite m) (log s') ->
      exists body st,
        log s' = body ++ [EvStateSave st; EvOutboxWrite m] /\
        Forall (fun e => is_state_save e = false /\ is_outbox_write e = false) body /\
        state_file (fs s') = Some st /\
        outbox (fs s') = Some m) /\
  (forall f1 m,
      crash_after_save w f = Some (f1, m) ->
      outbox f1 = outbox f /\
      state_file f1 = state_file (fs (fst (step (mkSys w f [])))) /\
      outbox (fs (fst (step (mkSys w f [])))) = Some m).
Proof.
  split.
  - intros s' r m E Hin.
    destruct (sent_message_of_step _ _ _ _ _ E Hin)
      as (m0 & wr & ps & -> & _ & _ & Hfs & Hl).
    exists (reads f ++ map EvOutputWrite ps), (state (self s')).
    split; [now rewrite Hl, <- app_assoc|].
    split; [|rewrite Hfs; cbn; auto].
    apply Forall_app. split.
    + unfold reads. destruct (inbox f); repeat constructor.
    + apply Forall_forall. intros e He.
      apply in_map_iff in He as (p & <- & _). now split.
  - intros f1 m. unfold crash_after_save.
    destruct (step_compute (mkSys w f [])) as [s1 [[b|[[[m0|] wr] ib]]|e]] eqn:E;
      try discriminate.
    intros H; injection H as <- <-.
    destruct (step_compute_saved _ _ _ _ _ _ _ E) as [Hout Hst].
    rewrite (step_after_compute _ _ _ _ _ E), step_send_some.
    cbn. auto.
Qed.

Lemma state_saved_before_message_sent_witness :
  let w := new_worker (range 0 12 1) no_files in
  crash_after_save w no_files
    = Some (mkFiles None None [] (Some (mkState "LOCK" 11 12)),
            mkMessage "FUNLO" (range 0 11 1)) /\
  outbox (mkFiles None None [] (Some (mkState "LOCK" 11 12))) = outbox no_files.
Proof.
  intros w. split; [reflexivity|].
  exact (proj1 (proj2 (state_saved_before_message_sent w no_files) _ _ eq_refl)).
Defined.

(** ** Restarting a worker *)

Lemma blind_ret {A} (a : A) : blind (ret a).
Proof. intros s1 s2 H. now split. Qed.

Lemma blind_raise {A} e : blind (@raise A e).
Proof. intros s1 s2 H. now split. Qed.

Lemma blind_bind {A B} (c : M A) (k : A -> M B) :
  blind c -> (forall a, blind (k a)) -> blind (bind c k).
Proof.
  intros Hc Hk s1 s2 H. unfold bind.
  destruct (Hc s1 s2 H) as [H1 H2].
  destruct (c s1) as [s1' r1], (c s2) as [s2' r2]. cbn in H1, H2. subst r2.
  destruct r1 as [a|e]; [apply Hk; exact H1 | now split].
Qed.

Ltac blind_prim :=
  let s1 := fresh "s1" in let s2 := fresh "s2" in
  intros s1 s2 (Hd & Hs & Hf & Hl);
  unfold same_but_stats; cbn; rewrite ?Hd, ?Hs, ?Hf, ?Hl; auto.

Lemma blind_get_data : blind get_data.
Proof. blind_prim. Qed.
Lemma blind_get_state : blind get_state.
Proof. blind_prim. Qed.
Lemma blind_set_state st : blind (set_state st).
Proof. blind_prim. Qed.
Lemma blind_set_stats g : blind (set_stats g).
Proof. blind_prim. Qed.
Lemma blind_append p : blind (append_output p).
Proof. blind_prim. Qed.
Lemma blind_save : blind _save_state.
Proof. blind_prim. Qed.
Lemma blind_write_msg m : blind (write_msg m).
Proof. blind_prim. Qed.
Lemma blind_load : blind _load_state.
Proof.
  intros s1 s2 (Hd & Hs & Hf & Hl). unfold _load_state. rewrite Hf, Hd.
  destruct (state_file (fs s2)); cbn; unfold same_but_stats; auto.
Qed.
Lemma blind_read_inbox : blind read_inbox.
Proof.
  intros s1 s2 (Hd & Hs & Hf & Hl). unfold read_inbox. rewrite Hf.
  destruct (inbox (fs s2)); cbn; unfold same_but_stats; cbn;
    rewrite ?Hd, ?Hs, ?Hl; auto.
Qed.

Ltac blind_step :=
  first
    [ apply blind_ret | apply blind_raise
    | apply blind_get_data | apply blind_get_state | apply blind_set_state
    | apply blind_set_stats | apply blind_append | apply blind_save
    | apply blind_write_msg | apply blind_load | apply blind_read_inbox
    | solve [auto 1]
    | apply blind_bind; [|intros]
    | match goal with
      | |- blind (if ?b then _ else _) => destruct b
      | |- blind (match ?x with _ => _ end) => destruct x
      end ].

Ltac blind_tac := repeat blind_step.

Lemma blind_set_phase p : blind (set_phase p).
Proof. unfold set_phase. blind_tac. Qed.
Lemma blind_set_index i : blind (set_index i).
Proof. unfold set_index. blind_tac. Qed.
Lemma blind_data_at i : blind (data_at i).
Proof. unfold data_at. blind_tac. Qed.

Lemma blind_output_loop fuel : forall max_v idx count write,
  blind (output_loop fuel max_v idx count write).
Proof.
  induction fuel as [|fuel IH]; intros; cbn [output_loop].
  - blind_tac.
  - pose proof blind_data_at. blind_tac; auto.
Qed.

Lemma blind_output_till max_v include write : blind (output_till max_v include write).
Proof.
  unfold output_till.
  pose proof blind_output_loop. pose proof blind_set_index.
  blind_tac; auto.
Qed.

Lemma blind_emit_checkpoints vs : forall write, blind (emit_checkpoints vs write).
Proof.
  induction vs as [|i vs IH]; intros; cbn [emit_checkpoints].
  - blind_tac.
  - pose proof blind_output_till. pose proof blind_set_phase.
    blind_tac; auto.
Qed.

Lemma blind_build_message write ib : blind (build_message write ib).
Proof.
  unfold build_message.
  pose proof blind_emit_checkpoints. pose proof blind_output_till.
  pose proof blind_set_phase. pose proof blind_set_index. pose proof blind_data_at.
  blind_tac; auto.
Qed.

Lemma blind_step : blind step.
Proof.
  unfold step, step_compute, step_branches, step_send, split_flag.
  pose proof blind_build_message. pose proof blind_set_phase.
  blind_tac; auto.
Qed.

(** [step] starts by reloading the state: what the object held before
    does not matter. *)
Lemma step_reloads w f lg :
  step (mkSys w f lg)
  = step (mkSys (mkWorker (data w) (persisted (data w) f) (stats w)) f lg).
Proof.
  unfold step, step_compute, bind. rewrite !load_state_eq. reflexivity.
Qed.

Lemma step_forgets_memory w1 w2 f lg :
  data w1 = data w2 ->
  same_but_stats (fst (step (mkSys w1 f lg))) (fst (step (mkSys w2 f lg))) /\
  snd (step (mkSys w1 f lg)) = snd (step (mkSys w2 f lg)).
Proof.
  intros Hd. rewrite (step_reloads w1), (step_reloads w2).
  apply blind_step. unfold same_but_stats; cbn. rewrite Hd. auto.
Qed.

Lemma steps_trace_forgets_memory peer : forall w1 w2 f,
  data w1 = data w2 -> steps_trace peer w1 f = steps_trace peer w2 f.
Proof.
  induction peer as [|g peer IH]; intros w1 w2 f Hd; cbn [steps_trace].
  - reflexivity.
  - destruct (step_forgets_memory w1 w2 (g f) [] Hd) as [(Hd' & _ & Hf & Hl) Hr].
    destruct (step (mkSys w1 (g f) [])) as [s1 r1], (step (mkSys w2 (g f) [])) as [s2 r2].
    cbn in *. subst r2. rewrite Hf, Hl. f_equal. apply IH. exact Hd'.
Qed.

(** C7.  A worker rebuilt from the files behaves, over any number of
    further steps and whatever the peer does to the files in between, as
    the worker that was never stopped: the same files after each step, the
    same effects in the same order, the same results. *)
Theorem restart_is_invisible peer w f :
  steps_trace peer (restart w f) f = steps_trace peer w f.
Proof. apply steps_trace_forgets_memory. reflexivity. Qed.

(** ** The coordinator loop *)

Lemma run_loop_unfold {World} (sa sb : World -> World * Result bool)
      fuel max_steps w act_a act_b steps :
  run_loop sa sb fuel max_steps w act_a act_b steps
  = if ((act_a || act_b) && (steps <? max_steps))%bool then
      match fuel with
      | O => (w, None)
      | S fuel' =>
          match run_turn sa w act_a steps with
          | (w1, Raise e) => (w1, Some (Raise e))
          | (w1, Ok (act_a', steps1)) =>
              match run_turn sb w1 act_b steps1 with
              | (w2, Raise e) => (w2, Some (Raise e))
              | (w2, Ok (act_b', steps2)) =>
                  run_loop sa sb fuel' max_steps w2 act_a' act_b' steps2
              end
          end
      end
    else (w, Some (Ok (act_a, act_b, steps))).
Proof. destruct fuel; reflexivity. Qed.

Lemma run_loop_idle {World} (sa sb : World -> World * Result bool)
      fuel max_steps w steps :
  run_loop sa sb fuel max_steps w false false steps
  = (w, Some (Ok (false, false, steps))).
Proof. rewrite run_loop_unfold. reflexivity. Qed.

Section CoordinatorFacts.
Context {World : Type}.
Variables step_a step_b : World -> World * Result bool.

Lemma run_turn_steps stp (w w' : World) active steps b steps' :
  run_turn stp w active steps = (w', Ok (b, steps')) ->
  (active = true /\ steps' = steps + 1) \/ (active = false /\ b = false /\ steps' = steps).
Proof.
  unfold run_turn. destruct active.
  - destruct (stp w) as [w1 [b1|e]]; [|discriminate].
    intros H; injection H as _ _ <-. now left.
  - intros H; injection H as _ <- <-. now right.
Qed.

(** With [max_steps - steps] passes of fuel the loop ends by its own
    test, and it ends at most one step over the budget. *)
Lemma run_loop_spec fuel : forall max_steps w act_a act_b steps,
  (Z.to_nat (max_steps - steps) <= fuel)%nat ->
  exists w' r,
    run_loop step_a step_b fuel max_steps w act_a act_b steps = (w', Some r) /\
    match r with
    | Ok (a', b', steps') =>
        steps <= steps' <= Z.max steps (max_steps + 1) /\
        (a' || b' = false \/ max_steps <= steps')
    | Raise _ => True
    end.
Proof.
  induction fuel as [|fuel IH]; intros max_steps w act_a act_b steps Hfuel.
  - cbn [run_loop].
    destruct ((act_a || act_b) && (steps <? max_steps))%bool eqn:Ec.
    + apply andb_true_iff in Ec as [_ Hlt]. apply Z.ltb_lt in Hlt. lia.
    + eexists _, _. split; [reflexivity|]. split; [lia|].
      apply andb_false_iff in Ec as [Ec | Ec]; [now left | right].
      apply Z.ltb_ge in Ec. lia.
  - cbn [run_loop].
    destruct ((act_a || act_b) && (steps <? max_steps))%bool eqn:Ec.
    2:{ eexists _, _. split; [reflexivity|]. split; [lia|].
        apply andb_false_iff in Ec as [Ec | Ec]; [now left | right].
        apply Z.ltb_ge in Ec. lia. }
    apply andb_true_iff in Ec as [Hact Hlt]. apply Z.ltb_lt in Hlt.
    destruct (run_turn step_a w act_a steps) as [w1 [[a1 steps1]|e]] eqn:Ea.
    2:{ eexists _, _. split; [reflexivity | exact I]. }
    destruct (run_turn step_b w1 act_b steps1) as [w2 [[b2 steps2]|e]] eqn:Eb.
    2:{ eexists _, _. split; [reflexivity | exact I]. }
    apply run_turn_steps in Ea, Eb.
    assert (Hs : steps + 1 <= steps2 <= steps + 2).
    { destruct Ea as [[-> ->] | (-> & _ & ->)], Eb as [[-> ->] | (-> & _ & ->)];
        try lia; try discriminate. }
    destruct (IH max_steps w2 a1 b2 steps2) as (w' & r & E & Hr); [lia|].
    exists w', r. split; [exact E|].
    destruct r as [[[a' b'] steps']|e]; [|exact I].
    destruct Hr as [Hb Hend]. split; [lia | exact Hend].
Qed.

(** [run] always returns: the fuel of the model never runs out. *)
Lemma run_total max_steps w :
  exists w' r, run step_a step_b max_steps w = (w', Some r).
Proof.
  unfold run, run_fuel.
  destruct (run_loop_spec (Z.to_nat max_steps) max_steps w true true 0)
    as (w' & r & E & _); [lia|].
  rewrite E. destruct r as [[[a b] n]|e]; eauto.
Qed.

(** The number of steps taken stays within one of the budget. *)
Lemma run_steps_le_budget_plus_one max_steps w w' success steps :
  0 <= max_steps ->
  run step_a step_b max_steps w = (w', Some (Ok (success, steps))) ->
  0 <= steps <= max_steps + 1 /\ (success = false -> max_steps <= steps).
Proof.
  intros H0. unfold run, run_fuel.
  destruct (run_loop_spec (Z.to_nat max_steps) max_steps w true true 0)
    as (w1 & r & E & Hr); [lia|].
  rewrite E. destruct r as [[[a b] n]|e]; [|discriminate].
  intros H; injection H as _ <- <-.
  destruct Hr as [Hb Hend]. split; [lia|].
  intros Hs. destruct Hend as [Hend | Hend]; [|exact Hend].
  rewrite Hend in Hs. discriminate.
Qed.

(** With counting step functions the counter and [steps] move together:
    [total_steps] is the number of calls of [step()]. *)
Lemma run_loop_counts fuel : forall max_steps n w act_a act_b steps n' w' r,
  run_loop (counting step_a) (counting step_b) fuel max_steps (n, w) act_a act_b steps
  = ((n', w'), Some (Ok r)) ->
  Z.of_nat n' - snd r = Z.of_nat n - steps.
Proof.
  induction fuel as [|fuel IH]; intros max_steps n w act_a act_b steps n' w' r;
    rewrite run_loop_unfold;
    destruct ((act_a || act_b) && (steps <? max_steps))%bool;
    try discriminate;
    try (intros H; injection H as <- <- <-; reflexivity).
  unfold run_turn, counting.
  destruct act_a, act_b;
    repeat match goal with
           | |- context [step_a ?v] => destruct (step_a v) as [? [?|?]]
           | |- context [step_b ?v] => destruct (step_b v) as [? [?|?]]
           end;
    try discriminate;
    intros H; apply IH in H; lia.
Qed.
End CoordinatorFacts.

(** C4 on the code: with a budget of one step and two workers that both
    have work left, [run] calls [step()] twice and reports
    [total_steps = 2]. *)
Theorem run_budget_one_takes_two_steps :
  counted_run 1 (fresh_cluster (range 0 12 1) (range 0 12 1))
  = (2%nat, Some (Ok (false, 2))).
Proof. vm_compute. reflexivity. Qed.

(** The same overrun with a successful end: both workers finish, the
    second one on the step after the budget. *)
Lemma run_budget_one_succeeds_in_two_steps :
  counted_run 1 (fresh_cluster [1] [2]) = (2%nat, Some (Ok (true, 2))).
Proof. vm_compute. reflexivity. Qed.

(** ** The emission on a consistent state *)

Lemma take_drop_below b l : take_below b l ++ drop_below b l = l.
Proof.
  induction l as [|v l IH]; cbn; [reflexivity|].
  destruct (v <? b); cbn; [now rewrite IH | reflexivity].
Qed.

Lemma render_app w vs1 vs2 :
  render w (vs1 ++ vs2) = render w vs1 ++ render (w || nonempty vs1) vs2.
Proof.
  revert w. induction vs1 as [|v vs1 IH]; intros w; cbn [app render nonempty].
  - now rewrite orb_false_r.
  - rewrite IH. cbn [orb]. rewrite orb_true_r, <- app_assoc. reflexivity.
Qed.

Lemma nonempty_app {A} (l1 l2 : list A) :
  nonempty (l1 ++ l2) = (nonempty l1 || nonempty l2)%bool.
Proof. now destruct l1. Qed.

Lemma emit_sys_compose s t1 st1 w vs1 t2 st2 vs2 :
  emit_sys (emit_sys s t1 st1 w vs1) t2 st2 (w || nonempty vs1) vs2
  = emit_sys s t2 st2 w (vs1 ++ vs2).
Proof.
  unfold emit_sys; cbn. now rewrite render_app, map_app, <- !app_assoc.
Qed.

Lemma emit_sys_nil_w s w :
  emit_sys s (stats (self s)) (state (self s)) w [] = s.
Proof.
  unfold emit_sys; cbn. rewrite !app_nil_r.
  destruct s as [[d st t] [i o out sf] lg]; reflexivity.
Qed.

Lemma skipn_cons_nth (l : list Z) n v rest :
  skipn n l = v :: rest -> nth_error l n = Some v /\ skipn (S n) l = rest.
Proof.
  revert l. induction n as [|n IH]; intros l H.
  - destruct l; [discriminate|]. cbn in H. injection H as -> ->. now split.
  - destruct l; [discriminate|]. cbn in H. apply IH in H. exact H.
Qed.

Lemma skipn_length_Z (l : list Z) i :
  0 <= i <= py_len l ->
  Z.of_nat (List.length (skipn (Z.to_nat i) l)) = py_len l - i.
Proof. intros H. rewrite length_skipn. unfold py_len in *. lia. Qed.

(** On a cursor inside the run the loop writes [take_below] of the rest,
    and cannot raise. *)
Lemma output_loop_exact fuel : forall b idx write s rest,
  0 <= idx <= py_len (data (self s)) ->
  skipn (Z.to_nat idx) (data (self s)) = rest ->
  (List.length rest <= fuel)%nat ->
  exists t',
    output_loop fuel b idx (py_len (data (self s))) write s
    = (emit_sys s t' (state (self s)) write (take_below b rest),
       Ok (idx + Z.of_nat (List.length (take_below b rest)),
           (write || nonempty (take_below b rest))%bool)).
Proof.
  induction fuel as [|fuel IH]; intros b idx write s rest Hidx Hrest Hfuel.
  - destruct rest; [|cbn in Hfuel; lia].
    exists (stats (self s)). cbn [output_loop take_below List.length nonempty ret].
    rewrite emit_sys_nil_w, orb_false_r, Z.add_0_r. reflexivity.
  - cbn [output_loop].
    destruct rest as [|v rest].
    { assert (Hlen : idx = py_len (data (self s))).
      { pose proof (skipn_length_Z (data (self s)) idx Hidx) as H.
        rewrite Hrest in H. cbn in H. lia. }
      replace (idx <? py_len (data (self s))) with false
        by (symmetry; apply Z.ltb_ge; lia).
      exists (stats (self s)). cbn [take_below List.length nonempty ret].
      rewrite emit_sys_nil_w, orb_false_r, Z.add_0_r. reflexivity. }
    pose proof (skipn_length_Z (data (self s)) idx Hidx) as Hlen.
    rewrite Hrest in Hlen. cbn [List.length] in Hlen.
    replace (idx <? py_len (data (self s))) with true
      by (symmetry; apply Z.ltb_lt; lia).
    destruct (skipn_cons_nth _ _ _ _ Hrest) as [Hnth Hskip].
    assert (Hget : py_getitem (data (self s)) idx = Some v).
    { unfold py_getitem.
      replace ((0 <=? idx) && (idx <? py_len (data (self s))))%bool with true
        by (symmetry; apply andb_true_iff; split; [apply Z.leb_le | apply Z.ltb_lt]; lia).
      exact Hnth. }
    unfold bind at 1, data_at at 1, bind at 1, get_data at 1. rewrite Hget. cbn [ret].
    cbn [take_below]. destruct (v <? b) eqn:Ecmp.
    2:{ exists (stats (self s)). cbn [List.length nonempty ret].
        rewrite emit_sys_nil_w, orb_false_r, Z.add_0_r. reflexivity. }
    assert (Hgo : forall s1 w0,
              s1 = emit_sys s (inc_output (inc_comparisons (stats (self s))))
                            (state (self s)) w0 [v] ->
              exists t',
                output_loop fuel b (idx + 1) (py_len (data (self s))) true s1
                = (emit_sys s t' (state (self s)) w0 (v :: take_below b rest),
                   Ok (idx + Z.of_nat (List.length (v :: take_below b rest)),
                       (w0 || nonempty (v :: take_below b rest))%bool))).
    { intros s1 w0 Hs1.
      assert (Hd1 : data (self s1) = data (self s)) by (now subst s1).
      assert (Hst1 : state (self s1) = state (self s)) by (now subst s1).
      destruct (IH b (idx + 1) true s1 rest) as [t' Ht'].
      - rewrite Hd1. lia.
      - rewrite Hd1. replace (Z.to_nat (idx + 1)) with (S (Z.to_nat idx)) by lia.
        exact Hskip.
      - cbn in Hfuel. lia.
      - exists t'. rewrite Hd1, Hst1 in Ht'. rewrite Ht'. f_equal.
        + subst s1. unfold emit_sys; cbn.
          destruct w0; cbn; rewrite <- !app_assoc; reflexivity.
        + cbn [List.length nonempty]. rewrite orb_true_r. f_equal. f_equal. lia. }
    destruct write; step_prims; apply Hgo; unfold emit_sys; cbn;
      rewrite <- ?app_assoc; reflexivity.
Qed.

Lemma run_left_index s rest :
  run_left s rest ->
  index (state (self s)) = len (state (self s)) - Z.of_nat (List.length rest).
Proof.
  intros (Hi & Hl & Hr). rewrite <- Hr.
  rewrite skipn_length_Z by (rewrite <- Hl; exact Hi). lia.
Qed.

Lemma skipn_more (l : list Z) n pre post :
  skipn n l = pre ++ post -> skipn (n + List.length pre) l = post.
Proof.
  intros H. rewrite Nat.add_comm, <- skipn_skipn, H.
  rewrite skipn_app, skipn_all, Nat.sub_diag. reflexivity.
Qed.

(** After writing, with the cursor moved over [taken], the rest is [left]. *)
Lemma run_left_emit s rest taken left t p w vs :
  run_left s rest ->
  rest = taken ++ left ->
  run_left (emit_sys s t (mkState p (len (state (self s)) - Z.of_nat (List.length left))
                                  (len (state (self s)))) w vs) left.
Proof.
  intros Hrl Hsplit. pose proof (run_left_index _ _ Hrl) as Hidx.
  destruct Hrl as (Hi & Hl & Hr).
  unfold run_left, emit_sys; cbn [self state data index len].
  rewrite Hsplit, length_app in Hidx.
  split; [lia|]. split; [exact Hl|].
  rewrite Hsplit in Hr. apply skipn_more in Hr.
  etransitivity; [|exact Hr]. f_equal. lia.
Qed.

Lemma drop_below_nil_iff b rest :
  drop_below b rest = [] <-> List.length (take_below b rest) = List.length rest.
Proof.
  pose proof (take_drop_below b rest) as H.
  apply (f_equal (@List.length Z)) in H. rewrite length_app in H.
  split; intros E.
  - rewrite E in H. cbn in H. lia.
  - destruct (drop_below b rest); [reflexivity | cbn in H; lia].
Qed.

(** [output_till] on a consistent state. *)
Lemma output_till_exact b include write s rest :
  run_left s rest ->
  exists t',
    output_till b include write s
    = (emit_sys s t'
         (mkState (phase (state (self s)))
                  (len (state (self s)) - Z.of_nat (List.length (drop_below b rest)))
                  (len (state (self s))))
         write (take_below b rest ++ if include then [b] else []),
       Ok (phase_for (drop_below b rest),
           (write || nonempty (take_below b rest ++ if include then [b] else []))%bool)).
Proof.
  intros Hrl. pose proof (run_left_index _ _ Hrl) as Hidx.
  destruct Hrl as (Hi & Hl & Hr).
  unfold output_till. unfold bind at 1, get_state at 1.
  assert (Hfuel : (List.length rest <= Z.to_nat (len (state (self s)) - index (state (self s))))%nat)
    by lia.
  destruct (output_loop_exact _ b (index (state (self s))) write s rest
              ltac:(rewrite <- Hl; exact Hi) Hr Hfuel) as [t1 E1].
  rewrite <- Hl in E1. unfold bind at 1. rewrite E1.
  pose proof (take_drop_below b rest) as Hsplit.
  assert (Hlen : Z.of_nat (List.length rest)
                 = Z.of_nat (List.length (take_below b rest))
                   + Z.of_nat (List.length (drop_below b rest))).
  { rewrite <- Hsplit at 1. rewrite length_app. lia. }
  assert (Hnew : index (state (self s)) + Z.of_nat (List.length (take_below b rest))
                 = len (state (self s)) - Z.of_nat (List.length (drop_below b rest))) by lia.
  rewrite Hnew.
  assert (Hph : (if len (state (self s)) <=?
                      len (state (self s)) - Z.of_nat (List.length (drop_below b rest))
                 then "DONE" else "LOCK") = phase_for (drop_below b rest)).
  { destruct (drop_below b rest); cbn [List.length phase_for].
    - now rewrite Z.sub_0_r, Z.leb_refl.
    - replace (_ <=? _) with false by (symmetry; apply Z.leb_gt; lia). reflexivity. }
  destruct include.
  - exists (inc_output t1).
    set (w1 := (write || nonempty (take_below b rest))%bool).
    rewrite nonempty_app. cbn [nonempty]. rewrite orb_true_r.
    destruct (len (state (self s)) <=? _) eqn:Ec; rewrite <- Hph;
      (destruct w1 eqn:Ew; step_prims; unfold emit_sys;
       cbn [self state fs log data inbox outbox output state_file phase index len stats];
       rewrite render_app; fold w1; rewrite Ew; cbn [render app];
       rewrite ?map_app, <- ?app_assoc; cbn [map app]; rewrite ?orb_true_r;
       reflexivity).
  - exists t1. rewrite app_nil_r.
    destruct (len (state (self s)) <=? _) eqn:Ec; rewrite <- Hph;
      step_prims; reflexivity.
Qed.

Lemma weave_cons c cps rest :
  weave (c :: cps) rest
  = (take_below c rest ++ c :: fst (weave cps (drop_below c rest)),
     snd (weave cps (drop_below c rest))).
Proof. cbn [weave]. now destruct (weave cps (drop_below c rest)). Qed.

Lemma state_eta st : mkState (phase st) (index st) (len st) = st.
Proof. now destruct st. Qed.

(** [for i in inbox_value: ... output_till(i, True)] on a consistent
    state: the checkpoints are woven into the rest of the run. *)
Lemma emit_checkpoints_exact cps : forall write s rest,
  run_left s rest ->
  exists t',
    emit_checkpoints cps write s
    = (emit_sys s t'
         (mkState (match cps with
                   | [] => phase (state (self s))
                   | _ :: _ => phase_for (snd (weave cps rest))
                   end)
                  (len (state (self s)) - Z.of_nat (List.length (snd (weave cps rest))))
                  (len (state (self s))))
         write (fst (weave cps rest)),
       Ok (write || nonempty (fst (weave cps rest)))%bool).
Proof.
  induction cps as [|c cps IH]; intros write s rest Hrl.
  - exists (stats (self s)). cbn [emit_checkpoints weave fst snd nonempty ret].
    rewrite <- (run_left_index _ _ Hrl), state_eta, emit_sys_nil_w, orb_false_r.
    reflexivity.
  - cbn [emit_checkpoints]. unfold bind at 1.
    destruct (output_till_exact c true write s rest Hrl) as [t1 E1].
    rewrite E1. unfold bind at 1, set_phase at 1, bind at 1, get_state at 1, set_state at 1.
    cbn [emit_sys self state fs log data stats phase index len].
    fold (emit_sys s t1 (mkState (phase_for (drop_below c rest))
                                 (len (state (self s))
                                  - Z.of_nat (List.length (drop_below c rest)))
                                 (len (state (self s))))
                   write (take_below c rest ++ [c])).
    match goal with
    | |- context [emit_checkpoints cps ?w1 ?s1] =>
        destruct (IH w1 s1 (drop_below c rest)) as [t2 E2];
        [ apply (run_left_emit s rest (take_below c rest)); [exact Hrl|];
          symmetry; apply take_drop_below
        | exists t2; rewrite E2 ]
    end.
    rewrite emit_sys_compose. rewrite weave_cons. cbn [fst snd].
    cbn [emit_sys self state len phase].
    rewrite <- app_assoc. cbn [app].
    f_equal.
    + f_equal. f_equal. destruct cps; reflexivity.
    + rewrite <- orb_assoc, <- nonempty_app, <- app_assoc. reflexivity.
Qed.

(** ** Sorted lists *)

Lemma below_nil_l l : below [] l.
Proof. intros u v []. Qed.

Lemma below_app_l l1 l2 l : below l1 l -> below l2 l -> below (l1 ++ l2) l.
Proof. intros H1 H2 u v Hu Hv. apply in_app_or in Hu as [Hu|Hu]; auto. Qed.

Lemma below_app_r l l1 l2 : below l l1 -> below l l2 -> below l (l1 ++ l2).
Proof. intros H1 H2 u v Hu Hv. apply in_app_or in Hv as [Hv|Hv]; auto. Qed.

Lemma below_incl_r l l1 l2 : incl l2 l1 -> below l l1 -> below l l2.
Proof. intros Hi H u v Hu Hv. apply H; auto. Qed.

Lemma below_incl_l l l1 l2 : incl l2 l1 -> below l1 l -> below l2 l.
Proof. intros Hi H u v Hu Hv. apply H; auto. Qed.

Lemma ssorted_app l1 l2 :
  StronglySorted Z.le l1 -> StronglySorted Z.le l2 -> below l1 l2 ->
  StronglySorted Z.le (l1 ++ l2).
Proof.
  intros H1 H2 Hb. induction l1 as [|a l1 IH]; [exact H2|].
  cbn. apply StronglySorted_inv in H1 as [H1 Ha]. constructor.
  - apply IH; [exact H1|]. intros u v Hu Hv. apply Hb; [now right | exact Hv].
  - apply Forall_app. split; [exact Ha|].
    apply Forall_forall. intros v Hv. apply Hb; [now left | exact Hv].
Qed.

Lemma ssorted_app_inv l1 l2 :
  StronglySorted Z.le (l1 ++ l2) ->
  StronglySorted Z.le l1 /\ StronglySorted Z.le l2 /\ below l1 l2.
Proof.
  induction l1 as [|a l1 IH]; cbn; intros H.
  - repeat split; [constructor | exact H | apply below_nil_l].
  - apply StronglySorted_inv in H as [H Ha].
    destruct (IH H) as (H1 & H2 & Hb).
    apply Forall_app in Ha as [Ha1 Ha2]. rewrite Forall_forall in Ha2.
    repeat split; [now constructor | exact H2 |].
    intros u v [<-|Hu] Hv; auto.
Qed.

Lemma ssorted_skipn n l : StronglySorted Z.le l -> StronglySorted Z.le (skipn n l).
Proof.
  intros H. rewrite <- (firstn_skipn n l) in H. now apply ssorted_app_inv in H.
Qed.

Lemma ssorted_firstn n l : StronglySorted Z.le l -> StronglySorted Z.le (firstn n l).
Proof.
  intros H. rewrite <- (firstn_skipn n l) in H. now apply ssorted_app_inv in H.
Qed.

Lemma below_firstn_skipn n l : StronglySorted Z.le l -> below (firstn n l) (skipn n l).
Proof.
  intros H. rewrite <- (firstn_skipn n l) in H. now apply ssorted_app_inv in H.
Qed.

Lemma ssorted_le_last l v : StronglySorted Z.le l -> In v l -> v <= last l 0.
Proof.
  intros H Hin. destruct (exists_last (l := l)) as (l' & x & ->).
  { intros ->. destruct Hin. }
  rewrite last_last. apply ssorted_app_inv in H as (_ & _ & Hb).
  apply in_app_or in Hin as [Hin | [<- | []]]; [|lia].
  apply Hb; [exact Hin | now left].
Qed.

Lemma take_below_lt b l v : In v (take_below b l) -> v < b.
Proof.
  induction l as [|a l IH]; cbn; [intros []|].
  destruct (a <? b) eqn:E; [|intros []].
  intros [<- | H]; [now apply Z.ltb_lt | auto].
Qed.

Lemma take_below_all b l : (forall v, In v l -> v < b) -> take_below b l = l.
Proof.
  induction l as [|a l IH]; cbn; intros H; [reflexivity|].
  replace (a <? b) with true by (symmetry; apply Z.ltb_lt; apply H; now left).
  f_equal. apply IH. intros v Hv. apply H. now right.
Qed.

Lemma drop_below_ge b l v :
  StronglySorted Z.le l -> In v (drop_below b l) -> b <= v.
Proof.
  induction l as [|a l IH]; cbn; intros Hs; [intros []|].
  apply StronglySorted_inv in Hs as [Hs Ha].
  destruct (a <? b) eqn:E; [now apply IH|].
  apply Z.ltb_ge in E. rewrite Forall_forall in Ha.
  intros [<- | Hv]; [exact E | specialize (Ha _ Hv); lia].
Qed.

Lemma incl_take_below b l : incl (take_below b l) l.
Proof.
  rewrite <- (take_drop_below b l) at 2. apply incl_appl, incl_refl.
Qed.

Lemma incl_drop_below b l : incl (drop_below b l) l.
Proof.
  rewrite <- (take_drop_below b l) at 2. apply incl_appr, incl_refl.
Qed.

Lemma ssorted_take_drop b l :
  StronglySorted Z.le l ->
  StronglySorted Z.le (take_below b l) /\ StronglySorted Z.le (drop_below b l)
  /\ below (take_below b l) (drop_below b l).
Proof. intros H. rewrite <- (take_drop_below b l) in H. now apply ssorted_app_inv. Qed.

(** ** Weaving *)

(** The values written are the checkpoints and what was taken off the
    front of the run. *)
Lemma weave_perm cps : forall rest,
  exists taken,
    rest = taken ++ snd (weave cps rest) /\
    Permutation (fst (weave cps rest)) (cps ++ taken).
Proof.
  induction cps as [|c cps IH]; intros rest.
  - exists []. cbn. split; [reflexivity | constructor].
  - rewrite weave_cons. cbn [fst snd].
    destruct (IH (drop_below c rest)) as (taken & Hsplit & Hperm).
    exists (take_below c rest ++ taken). split.
    + rewrite <- app_assoc, <- Hsplit. symmetry. apply take_drop_below.
    + rewrite Hperm.
      change (c :: cps ++ taken) with ([c] ++ cps ++ taken).
      change ((c :: cps) ++ take_below c rest ++ taken)
        with ([c] ++ cps ++ take_below c rest ++ taken).
      rewrite !app_assoc. apply Permutation_app_tail.
      rewrite <- !app_assoc.
      rewrite (Permutation_app_comm (take_below c rest) ([c] ++ cps)).
      now rewrite <- app_assoc.
Qed.

(** Written after sorted values [O] that are below both the checkpoints and
    the run, the woven values keep the output sorted and below what is
    left of the run. *)
Lemma weave_sorted cps : forall O rest,
  StronglySorted Z.le O -> StronglySorted Z.le cps -> StronglySorted Z.le rest ->
  below O cps -> below O rest ->
  StronglySorted Z.le (O ++ fst (weave cps rest)) /\
  below (O ++ fst (weave cps rest)) (snd (weave cps rest)).
Proof.
  induction cps as [|c cps IH]; intros O rest HO Hc Hr Hbc Hbr.
  - cbn. rewrite app_nil_r. now split.
  - rewrite weave_cons. cbn [fst snd].
    apply StronglySorted_inv in Hc as [Hc Hcc]. rewrite Forall_forall in Hcc.
    destruct (ssorted_take_drop c rest Hr) as (Ht & Hd & Htd).
    assert (HO' : StronglySorted Z.le (O ++ take_below c rest ++ [c])).
    { apply ssorted_app; [exact HO | |].
      - apply ssorted_app; [exact Ht | repeat constructor |].
        intros u v Hu [<- | []]. apply take_below_lt in Hu. lia.
      - apply below_app_r.
        + eapply below_incl_r; [apply incl_take_below | exact Hbr].
        + intros u v Hu [<- | []]. apply Hbc; [exact Hu | now left]. }
    destruct (IH (O ++ take_below c rest ++ [c]) (drop_below c rest)) as [H1 H2];
      try assumption.
    + apply below_app_l; [|apply below_app_l].
      * intros u v Hu Hv. apply Hbc; [exact Hu | now right].
      * intros u v Hu Hv. apply take_below_lt in Hu. specialize (Hcc _ Hv). lia.
      * intros u v [<- | []] Hv. now apply Hcc.
    + apply below_app_l; [|apply below_app_l].
      * eapply below_incl_r; [apply incl_drop_below | exact Hbr].
      * exact Htd.
      * intros u v [<- | []] Hv. exact (drop_below_ge c rest v Hr Hv).
    + rewrite <- !app_assoc in H1, H2. cbn [app] in H1, H2. now split.
Qed.

(** The values written stay below whatever the checkpoints are below. *)
Lemma weave_below cps : forall rest l,
  below cps l -> below (fst (weave cps rest)) l.
Proof.
  induction cps as [|c cps IH]; intros rest l Hb.
  - cbn. apply below_nil_l.
  - rewrite weave_cons. cbn [fst].
    apply below_app_l.
    + intros u v Hu Hv. apply take_below_lt in Hu.
      specialize (Hb c v (or_introl eq_refl) Hv). lia.
    + intros u v [<- | Hu] Hv; [apply Hb; [now left | exact Hv]|].
      revert u v Hu Hv. apply IH.
      intros u v Hu Hv. apply Hb; [now right | exact Hv].
Qed.

(** ** The branches on a consistent state *)

Lemma firstn_skipn_length (l : list Z) n :
  Z.of_nat (List.length (skipn n l))
  = Z.of_nat (List.length l) - Z.min (Z.of_nat n) (Z.of_nat (List.length l)).
Proof. rewrite length_skipn. lia. Qed.

(** With the cursor at [len - |rest|], the next chunk is [firstn 11 rest]
    and the cursor moves to [len - |skipn 11 rest|]. *)
Lemma next_chunk d n i rest :
  n = py_len d -> i = n - Z.of_nat (List.length rest) ->
  skipn (Z.to_nat i) d = rest ->
  py_slice d i (Z.min n (i + 11)) = firstn 11 rest /\
  Z.min n (i + 11) = n - Z.of_nat (List.length (skipn 11 rest)).
Proof.
  intros Hn Hi Hr.
  pose proof (firstn_skipn_length rest 11) as Hlen.
  assert (Hi0 : 0 <= i <= n).
  { subst n i. rewrite <- Hr, length_skipn. unfold py_len. lia. }
  split; [|lia].
  rewrite py_slice_in_range by lia. rewrite Hr.
  destruct (Z.le_gt_cases (Z.of_nat (List.length rest)) 11) as [Hle | Hgt].
  - rewrite !firstn_all2 by lia. reflexivity.
  - f_equal. lia.
Qed.

(** Steady state: a chunk [cps] arrives. *)
Lemma build_message_chunk wr tag cps s rest :
  run_left s rest ->
  String.eqb tag "DONE" = false ->
  cps <> [] ->
  exists t',
    build_message wr (Some (mkMessage tag cps)) s
    = (emit_sys s t'
         (mkState (phase_for (snd (weave cps rest)))
                  (len (state (self s))
                   - Z.of_nat (List.length (skipn 11 (snd (weave cps rest)))))
                  (len (state (self s))))
         wr (fst (weave cps rest)),
       Ok (Some (mkMessage (if nonempty (snd (weave cps rest)) then "UNLO" else "DONE")
                           (firstn 11 (snd (weave cps rest)))),
           (wr || nonempty (fst (weave cps rest)))%bool)).
Proof.
  intros Hrl Htag Hne.
  unfold build_message. unfold bind at 1, get_state at 1.
  cbn [is_some negb]. rewrite andb_false_r.
  cbn [inbox_is msg_type values]. rewrite Htag.
  unfold bind at 1.
  destruct (emit_checkpoints_exact cps wr s rest Hrl) as [t1 E1]. rewrite E1.
  destruct cps as [|c cps]; [congruence|].
  set (out := fst (weave (c :: cps) rest)).
  set (rest' := snd (weave (c :: cps) rest)).
  destruct (weave_perm (c :: cps) rest) as (taken & Hsplit & _). fold rest' in Hsplit.
  pose proof (run_left_emit s rest taken rest' t1 (phase_for rest') wr out Hrl Hsplit)
    as Hrl1.
  pose proof Hrl1 as (Hi1 & Hl1 & Hr1).
  cbn [emit_sys self state data index len] in Hi1, Hl1, Hr1.
  destruct (next_chunk (data (self s)) (len (state (self s)))
              (len (state (self s)) - Z.of_nat (List.length rest')) rest'
              Hl1 eq_refl Hr1) as [Hchunk Hnext].
  exists t1.
  step_prims. cbn [emit_sys self state data index len phase fs log stats].
  rewrite Hchunk, Hnext.
  destruct rest' as [|r0 rest'0] eqn:Er; cbn [phase_for nonempty String.eqb negb];
    reflexivity.
Qed.

(** Peer finished: the checkpoints are woven in and the rest of the run is
    flushed.  This needs a last element to read. *)
Lemma build_message_final wr cps s rest :
  run_left s rest ->
  String.eqb (phase (state (self s))) "DONE" = false ->
  data (self s) <> [] ->
  StronglySorted Z.le (data (self s)) ->
  exists t',
    build_message wr (Some (mkMessage "DONE" cps)) s
    = (emit_sys s t'
         (mkState "DONE" (len (state (self s))) (len (state (self s))))
         wr (fst (weave cps rest) ++ snd (weave cps rest)),
       Ok (Some (mkMessage "DONE" []),
           (wr || nonempty (fst (weave cps rest) ++ snd (weave cps rest)))%bool)).
Proof.
  intros Hrl Hph Hne Hsorted.
  unfold build_message. unfold bind at 1, get_state at 1.
  cbn [is_some negb]. rewrite andb_false_r.
  cbn [inbox_is msg_type values]. cbn [String.eqb Ascii.eqb Bool.eqb]. rewrite Hph.
  unfold bind at 1.
  destruct (emit_checkpoints_exact cps wr s rest Hrl) as [t1 E1]. rewrite E1.
  set (out := fst (weave cps rest)).
  set (rest' := snd (weave cps rest)).
  set (p1 := match cps with [] => phase (state (self s)) | _ :: _ => phase_for rest' end).
  destruct (weave_perm cps rest) as (taken & Hsplit & _). fold rest' in Hsplit.
  pose proof (run_left_emit s rest taken rest' t1 p1 wr out Hrl Hsplit) as Hrl1.
  unfold bind at 1, data_at at 1, bind at 1, get_data at 1.
  cbn [emit_sys self data]. rewrite (py_getitem_last _ Hne). cbn [ret].
  destruct (output_till_exact (last (data (self s)) 0 + 1) false
              (wr || nonempty out)%bool _ rest' Hrl1) as [t2 E2].
  unfold bind at 1. fold (emit_sys s t1 (mkState p1 (len (state (self s))
                                                     - Z.of_nat (List.length rest'))
                                                 (len (state (self s)))) wr out).
  rewrite E2.
  assert (Hall : take_below (last (data (self s)) 0 + 1) rest' = rest').
  { apply take_below_all. intros v Hv.
    assert (In v (data (self s))).
    { destruct Hrl as (_ & _ & Hr). rewrite <- (firstn_skipn (Z.to_nat (index (state (self s))))).
      rewrite Hr, Hsplit. apply in_or_app. right. apply in_or_app. now right. }
    pose proof (ssorted_le_last _ v Hsorted H). lia. }
  assert (Hnone : drop_below (last (data (self s)) 0 + 1) rest' = []).
  { apply drop_below_nil_iff. now rewrite Hall. }
  rewrite Hall, Hnone, app_nil_r.
  exists t2. step_prims.
  cbn [emit_sys self state data index len phase fs log stats phase_for List.length].
  f_equal.
  - rewrite Z.sub_0_r.
    fold (emit_sys s t1 (mkState p1 (len (state (self s)) - Z.of_nat (List.length rest'))
                                 (len (state (self s)))) wr out).
    rewrite <- (emit_sys_compose s t1 (mkState p1 (len (state (self s))
                                                   - Z.of_nat (List.length rest'))
                                               (len (state (self s)))) wr out).
    unfold emit_sys. cbn [self state data index len phase fs log stats
                          inbox outbox output state_file]. reflexivity.
  - rewrite nonempty_app, orb_assoc. reflexivity.
Qed.

(** ** A whole step on a consistent state *)

Lemma step_branches_ok wr ib s s1 msg w1 :
  build_message wr ib s = (s1, Ok (msg, w1)) ->
  step_branches wr ib s
  = (mkSys (self s1)
           (mkFiles (inbox (fs s1)) (outbox (fs s1)) (output (fs s1))
                    (Some (state (self s1))))
           (log s1 ++ [EvStateSave (state (self s1))]), Ok (msg, w1)).
Proof. intros E. unfold step_branches, bind. rewrite E. reflexivity. Qed.

(** What [step] does once a message with a flag character was read, in
    terms of [build_message]. *)
Lemma step_with_message w f lg c tag cps s1 m0 w1 :
  let st := persisted (data w) f in
  phase st = "INIT" \/ phase st = "LOCK" ->
  inbox f = Some (mkMessage (String c tag) cps) ->
  tag = "DONE" \/ tag = "UNLO" ->
  build_message (Ascii.eqb c "T") (Some (mkMessage tag cps))
    (mkSys (mkWorker (data w) (unlocked st) (inc_received (stats w)))
           (mkFiles None (outbox f) (output f) (state_file f))
           (lg ++ [EvInboxRead (mkMessage (String c tag) cps)]))
  = (s1, Ok (Some m0, w1)) ->
  step (mkSys w f lg)
  = (mkSys (mkWorker (data (self s1)) (state (self s1)) (inc_sent (stats (self s1))))
           (mkFiles (inbox (fs s1)) (Some (stamp w1 m0)) (output (fs s1))
                    (Some (state (self s1))))
           ((log s1 ++ [EvStateSave (state (self s1))]) ++ [EvOutboxWrite (stamp w1 m0)]),
     Ok (negb (String.eqb (phase (state (self s1))) "DONE"))).
Proof.
  intros st Hph Hin Htag E.
  unfold step, step_compute, bind.
  rewrite load_state_eq. unfold set_state at 1. cbn [self fs log data stats].
  fold st.
  assert (Hnd : String.eqb (phase st) "DONE" = false)
    by (destruct Hph as [-> | ->]; reflexivity).
  rewrite Hnd.
  unfold read_inbox. cbn [self fs log data stats state inbox outbox output state_file].
  rewrite Hin. unfold split_flag. cbn [msg_type values ret].
  assert (Hun : (is_some (Some (mkMessage tag cps))
                 && (inbox_is (Some (mkMessage tag cps)) "DONE"
                     || inbox_is (Some (mkMessage tag cps)) "UNLO"))%bool = true)
    by (destruct Htag as [-> | ->]; reflexivity).
  rewrite Hun.
  apply step_branches_ok in E.
  unfold unlocked in E.
  destruct (String.eqb (phase st) "LOCK") eqn:Elock.
  - unfold set_phase, get_state, set_state, bind.
    cbn [self fs log data stats state inbox outbox output state_file phase index len].
    rewrite E. cbn [ret]. rewrite step_send_some. reflexivity.
  - rewrite E. cbn [ret]. rewrite step_send_some. reflexivity.
Qed.

Lemma run_left_unlocked w f lg st t :
  0 <= index st <= len st -> len st = py_len (data w) ->
  run_left (mkSys (mkWorker (data w) (unlocked st) t) f lg)
           (skipn (Z.to_nat (index st)) (data w)).
Proof.
  intros Hi Hl. unfold run_left. cbn [self state data].
  rewrite unlocked_index, unlocked_len. auto.
Qed.

(** A step that receives a chunk. *)
Lemma step_on_chunk w f lg c cps :
  let st := persisted (data w) f in
  phase st = "INIT" \/ phase st = "LOCK" ->
  0 <= index st <= len st ->
  len st = py_len (data w) ->
  inbox f = Some (mkMessage (String c "UNLO") cps) ->
  cps <> [] ->
  let out := fst (weave cps (skipn (Z.to_nat (index st)) (data w))) in
  let rest' := snd (weave cps (skipn (Z.to_nat (index st)) (data w))) in
  exists s',
    step (mkSys w f lg) = (s', Ok (nonempty rest')) /\
    data (self s') = data w /\
    fs s' = mkFiles None
              (Some (mkMessage
                       (String (if (Ascii.eqb c "T" || nonempty out)%bool then "T" else "F")
                               (if nonempty rest' then "UNLO" else "DONE"))
                       (firstn 11 rest')))
              (output f ++ render (Ascii.eqb c "T") out)
              (Some (mkState (phase_for rest')
                             (len st - Z.of_nat (List.length (skipn 11 rest')))
                             (len st))).
Proof.
  intros st Hph Hi Hl Hin Hne out rest'.
  destruct (build_message_chunk (Ascii.eqb c "T") "UNLO" cps _ _
              (run_left_unlocked w (mkFiles None (outbox f) (output f) (state_file f))
                 (lg ++ [EvInboxRead (mkMessage (String c "UNLO") cps)])
                 st (inc_received (stats w)) Hi Hl) eq_refl Hne) as [t1 E].
  fold out rest' in E.
  eexists. split; [|split].
  - rewrite (step_with_message w f lg c "UNLO" cps _ _ _ Hph Hin (or_intror eq_refl) E).
    f_equal. cbn [emit_sys self state phase].
    destruct rest'; reflexivity.
  - reflexivity.
  - cbn [fs emit_sys self state inbox outbox output stamp msg_type values
         phase index len].
    rewrite unlocked_len.
    destruct (Ascii.eqb c "T" || nonempty out)%bool; reflexivity.
Qed.

(** A step that receives the peer's [DONE]. *)
Lemma step_on_final w f lg c cps :
  let st := persisted (data w) f in
  phase st = "INIT" \/ phase st = "LOCK" ->
  0 <= index st <= len st ->
  len st = py_len (data w) ->
  inbox f = Some (mkMessage (String c "DONE") cps) ->
  data w <> [] ->
  StronglySorted Z.le (data w) ->
  let out := fst (weave cps (skipn (Z.to_nat (index st)) (data w))) in
  let rest' := snd (weave cps (skipn (Z.to_nat (index st)) (data w))) in
  exists s',
    step (mkSys w f lg) = (s', Ok false) /\
    data (self s') = data w /\
    fs s' = mkFiles None
              (Some (mkMessage
                       (String (if (Ascii.eqb c "T" || nonempty (out ++ rest'))%bool
                                then "T" else "F") "DONE") []))
              (output f ++ render (Ascii.eqb c "T") (out ++ rest'))
              (Some (mkState "DONE" (len st) (len st))).
Proof.
  intros st Hph Hi Hl Hin Hne Hsorted out rest'.
  destruct (build_message_final (Ascii.eqb c "T") cps _ _
              (run_left_unlocked w (mkFiles None (outbox f) (output f) (state_file f))
                 (lg ++ [EvInboxRead (mkMessage (String c "DONE") cps)])
                 st (inc_received (stats w)) Hi Hl)) as [t1 E].
  - cbn [self state]. unfold unlocked.
    destruct Hph as [Hp | Hp]; rewrite Hp; cbn; rewrite ?Hp; reflexivity.
  - exact Hne.
  - exact Hsorted.
  - fold out rest' in E.
    eexists. split; [|split].
    + rewrite (step_with_message w f lg c "DONE" cps _ _ _ Hph Hin (or_introl eq_refl) E).
      reflexivity.
    + reflexivity.
    + cbn [fs emit_sys self state inbox outbox output stamp msg_type values
           phase index len].
      rewrite unlocked_len.
      destruct (Ascii.eqb c "T" || nonempty (out ++ rest'))%bool; reflexivity.
Qed.

(** The first move of a worker that has neither state nor message. *)
Lemma step_first_move w f lg :
  state_file f = None ->
  inbox f = None ->
  exists s',
    step (mkSys w f lg) = (s', Ok (11 <? py_len (data w))) /\
    data (self s') = data w /\
    fs s' = mkFiles None
              (Some (mkMessage (String "F" (if 11 <? py_len (data w) then "UNLO" else "DONE"))
                               (firstn 11 (data w))))
              (output f)
              (Some (mkState (if 11 <? py_len (data w) then "LOCK" else "DONE")
                             (Z.min (py_len (data w)) 11) (py_len (data w)))).
Proof.
  intros Hsf Hin.
  unfold step, step_compute, bind. rewrite load_state_eq.
  unfold persisted. rewrite Hsf. unfold set_state at 1.
  cbn [self fs log data stats _initial_state phase String.eqb Ascii.eqb Bool.eqb].
  unfold read_inbox. cbn [self fs log data stats state inbox outbox output state_file].
  rewrite Hin. unfold split_flag. cbn [ret].
  unfold step_branches, build_message, step_send, _initial_state.
  step_prims. cbn [String.eqb Ascii.eqb Bool.eqb is_some negb andb Z.add].
  cbn [self data state fs log stats].
  destruct (next_chunk (data w) (py_len (data w)) 0 (data w) eq_refl) as [Hchunk Hnext].
  { unfold py_len. lia. }
  { reflexivity. }
  cbn [Z.add] in Hchunk, Hnext. rewrite Hchunk.
  destruct (py_len (data w) <=? Z.min (py_len (data w)) 11) eqn:Ec.
  - apply Z.leb_le in Ec.
    replace (11 <? py_len (data w)) with false by (symmetry; apply Z.ltb_ge; lia).
    step_prims. cbn [String.eqb Ascii.eqb Bool.eqb String.append].
    rewrite Hin. eexists. split; [reflexivity|]. split; reflexivity.
  - apply Z.leb_gt in Ec.
    replace (11 <? py_len (data w)) with true by (symmetry; apply Z.ltb_lt; lia).
    step_prims. cbn [String.eqb Ascii.eqb Bool.eqb String.append andb is_some].
    rewrite Hin. eexists. split; [reflexivity|]. split; reflexivity.
Qed.

(** ** One turn of the protocol *)

Lemma flag_char (flag : bool) : Ascii.eqb (if flag then "T" else "F")%char "T" = flag.
Proof. now destruct flag. Qed.

Lemma render_after O w vs :
  w = nonempty O -> render false O ++ render w vs = render false (O ++ vs).
Proof. intros ->. now rewrite render_app. Qed.

Lemma firstn_prefix (l A B : list Z) :
  l = A ++ B -> firstn (List.length l - List.length B) l = A.
Proof.
  intros ->. rewrite length_app.
  replace (List.length A + List.length B - List.length B)%nat
    with (List.length A + 0)%nat by lia.
  rewrite firstn_app_2. cbn. apply app_nil_r.
Qed.

Lemma skipn_prefix (l A B : list Z) :
  l = A ++ B -> skipn (List.length l - List.length B) l = B.
Proof.
  intros ->. rewrite length_app.
  replace (List.length A + List.length B - List.length B)%nat
    with (List.length A) by lia.
  rewrite skipn_app, skipn_all, Nat.sub_diag. reflexivity.
Qed.

Lemma split_run (l : list Z) n rest taken left k :
  skipn n l = rest -> rest = taken ++ left ->
  l = ((firstn n l ++ taken) ++ firstn k left) ++ skipn k left.
Proof.
  intros Hr Hs.
  rewrite <- (app_assoc _ (firstn k left)), firstn_skipn, <- app_assoc, <- Hs, <- Hr.
  symmetry. apply firstn_skipn.
Qed.

Lemma firstn_nonempty (l : list Z) k : l <> [] -> (0 < k)%nat -> firstn k l <> [].
Proof. destruct l, k; cbn; try congruence; lia. Qed.

Lemma incl_firstn (l : list Z) k : incl (firstn k l) l.
Proof. rewrite <- (firstn_skipn k l) at 2. apply incl_appl, incl_refl. Qed.

Lemma incl_skipn (l : list Z) k : incl (skipn k l) l.
Proof. rewrite <- (firstn_skipn k l) at 2. apply incl_appr, incl_refl. Qed.

Lemma perm_after_chunk (O out X0 ypre cps taken : list Z) :
  Permutation O (X0 ++ ypre) -> Permutation out (cps ++ taken) ->
  Permutation (O ++ out) ((ypre ++ cps) ++ X0 ++ taken).
Proof.
  intros HO Hout. rewrite HO, Hout. rewrite <- !app_assoc.
  etransitivity; [apply Permutation_app_comm|].
  rewrite <- !app_assoc. do 2 apply Permutation_app_head.
  apply Permutation_app_comm.
Qed.

Lemma perm_after_final (O out X0 ypre cps taken left : list Z) :
  Permutation O (X0 ++ ypre) -> Permutation out (cps ++ taken) ->
  Permutation (O ++ out ++ left) ((X0 ++ taken ++ left) ++ ypre ++ cps).
Proof.
  intros HO Hout. rewrite app_assoc, (perm_after_chunk _ _ _ _ _ _ HO Hout).
  replace (((ypre ++ cps) ++ X0 ++ taken) ++ left)
    with ((ypre ++ cps) ++ X0 ++ taken ++ left) by (now rewrite <- !app_assoc).
  apply Permutation_app_comm.
Qed.

Lemma chunks_mono m n : (m <= n)%nat -> (chunks m <= chunks n)%nat.
Proof. intros H. unfold chunks. apply Nat.Div0.div_le_mono. lia. Qed.

Lemma chunks_skip n : (0 < n)%nat -> (chunks (n - 11) < chunks n)%nat.
Proof.
  intros H. unfold chunks.
  destruct (Nat.le_gt_cases 11 n) as [Hn | Hn].
  - replace (n + 10)%nat with ((n - 11 + 10) + 1 * 11)%nat by lia.
    rewrite Nat.div_add by lia. lia.
  - replace (n - 11)%nat with 0%nat by lia.
    change ((0 + 10) / 11)%nat with 0%nat.
    apply Nat.div_le_lower_bound; lia.
Qed.

Lemma chunks_le n : (chunks n <= n)%nat.
Proof.
  unfold chunks. destruct n; [reflexivity|].
  apply Nat.Div0.div_le_upper_bound. lia.
Qed.

Section Turns.
Variables x y : list Z.
Hypothesis Hx : StronglySorted Z.le x.
Hypothesis Hy : StronglySorted Z.le y.

(** The worker whose turn it is takes its step: it either ends the merge
    or hands the turn to the peer, with fewer values left to announce. *)
Lemma turn_advance fx sy done mu w lg :
  data w = x ->
  Turn x y fx sy done mu ->
  exists s' b,
    step (mkSys w fx lg) = (s', Ok b) /\
    data (self s') = x /\
    if done then
      b = false /\ Finished x y (output (fs s'))
    else
      exists mu',
        Turn y x (mkFiles (outbox (fs s')) (inbox (fs s')) (output (fs s')) sy)
             (state_file (fs s')) (negb b) mu' /\
        (mu' <= mu)%nat /\ (b = true -> (mu' < mu)%nat).
Proof.
  intros Hd (ix & iy & flag & cps & ypre & O & px & Hpx & Hst & Hin & Hsy & Hix & Hiy
             & Hfirst & Hdone & Hout & Hflag & HO & Hperm & Hbc & Hbx & Hby & Hmu).
  subst x.
  assert (Hph : phase (persisted (data w) fx) = "INIT"
                \/ phase (persisted (data w) fx) = "LOCK")
    by (rewrite Hst; exact Hpx).
  assert (Hi : 0 <= index (persisted (data w) fx) <= len (persisted (data w) fx))
    by (rewrite Hst; cbn; unfold py_len; lia).
  assert (Hl : len (persisted (data w) fx) = py_len (data w)) by (now rewrite Hst).
  assert (Hidx : Z.to_nat (index (persisted (data w) fx)) = ix)
    by (rewrite Hst; cbn; lia).
  set (rest := skipn ix (data w)) in *.
  assert (Hrest : StronglySorted Z.le rest) by (apply ssorted_skipn, Hx).
  assert (Hcps : StronglySorted Z.le cps).
  { pose proof (ssorted_firstn iy y Hy) as H. rewrite Hfirst in H.
    now apply ssorted_app_inv in H. }
  assert (Hcy : below cps (skipn iy y)).
  { eapply below_incl_l; [|apply (below_firstn_skipn iy y Hy)].
    rewrite Hfirst. apply incl_appr, incl_refl. }
  destruct (weave_perm cps rest) as (taken & Hsplit & Hwperm).
  destruct (weave_sorted cps O rest HO Hcps Hrest Hbc Hbx) as [Hws Hwb].
  pose proof (weave_below cps rest _ Hcy) as Hwy.
  set (out := fst (weave cps rest)) in *.
  set (rest' := snd (weave cps rest)) in *.
  destruct done.
  - (* the peer is done *)
    destruct Hdone as [Hiy' Hne].
    destruct (step_on_final w fx lg _ cps Hph Hi Hl Hin Hne Hx) as (s' & E & Hd' & Hfs).
    rewrite Hidx in Hfs. fold rest out rest' in Hfs.
    exists s', false. split; [exact E|]. split; [exact Hd'|]. split; [reflexivity|].
    exists (O ++ out ++ rest'). rewrite Hfs. cbn [output].
    split; [|split].
    + rewrite Hout, flag_char. now apply render_after.
    + rewrite app_assoc. apply ssorted_app; [exact Hws | | exact Hwb].
      rewrite Hsplit in Hrest. now apply ssorted_app_inv in Hrest.
    + replace (data w ++ y)
        with ((firstn ix (data w) ++ taken ++ rest') ++ ypre ++ cps).
      * now apply perm_after_final.
      * f_equal; [rewrite <- Hsplit; apply firstn_skipn|].
        rewrite <- Hfirst, Hiy'. apply firstn_all.
  - (* a chunk arrived *)
    destruct (step_on_chunk w fx lg _ cps Hph Hi Hl Hin Hdone) as (s' & E & Hd' & Hfs).
    rewrite Hidx in E, Hfs. fold rest out rest' in E, Hfs.
    exists s', (nonempty rest'). split; [exact E|]. split; [exact Hd'|].
    exists (chunks (List.length y - iy) + chunks (List.length (skipn 11 rest')))%nat.
    assert (Hlenrest : List.length rest = (List.length (data w) - ix)%nat)
      by (unfold rest; apply length_skipn).
    assert (Hlen' : (List.length taken + List.length rest' = List.length rest)%nat)
      by (pose proof (f_equal (@List.length Z) Hsplit) as H;
          rewrite length_app in H; lia).
    pose proof (length_skipn 11 rest') as Hsk.
    split; [|split].
    + exists iy, (List.length (data w) - List.length (skipn 11 rest'))%nat,
             (flag || nonempty out)%bool, (firstn 11 rest'),
             (firstn ix (data w) ++ taken), (O ++ out), "LOCK".
      rewrite Hfs. cbn [inbox outbox output state_file].
      split; [now right|].
      split; [unfold persisted; cbn [state_file]; rewrite Hsy; reflexivity|].
      split; [rewrite flag_char; destruct rest'; reflexivity|].
      split.
      { rewrite Hst. cbn [len]. f_equal. f_equal.
        - now destruct rest'.
        - unfold py_len. lia. }
      split; [exact Hiy|]. split; [lia|].
      split; [apply firstn_prefix, (split_run _ ix rest); [reflexivity | exact Hsplit]|].
      split.
      { destruct rest' as [|r0 r1] eqn:Er; cbn [nonempty negb].
        - split; [rewrite skipn_nil; cbn [List.length]; lia|].
          intros ->. rewrite firstn_nil in Hfirst.
          destruct ypre; [cbn in Hfirst; congruence | discriminate].
        - discriminate. }
      split; [rewrite Hout, flag_char; now apply render_after|].
      split; [rewrite Hflag; symmetry; apply nonempty_app|].
      split; [exact Hws|].
      split.
      { rewrite Hfirst. now apply perm_after_chunk. }
      split; [eapply below_incl_r; [apply incl_firstn | exact Hwb]|].
      split; [apply below_app_l; [exact Hby | exact Hwy]|].
      split.
      { eapply below_incl_r; [|exact Hwb].
        rewrite (skipn_prefix _ _ _ (split_run (data w) ix rest taken rest' 11
                                       eq_refl Hsplit)).
        apply incl_skipn. }
      f_equal. f_equal. lia.
    + rewrite Hmu, (Nat.add_comm (chunks (List.length (data w) - ix))).
      apply Nat.add_le_mono_l, chunks_mono. lia.
    + intros Hb. rewrite Hmu, (Nat.add_comm (chunks (List.length (data w) - ix))).
      apply Nat.add_lt_mono_l.
      rewrite Hsk. apply Nat.lt_le_trans with (chunks (List.length rest')).
      * apply chunks_skip. destruct rest'; [discriminate | cbn; lia].
      * apply chunks_mono. lia.
Qed.
End Turns.

(** ** The protocol under the coordinator *)

Lemma finished_sym x y out : Finished x y out -> Finished y x out.
Proof.
  intros (O & Ho & Hs & Hp). exists O. repeat split; auto.
  rewrite Hp. apply Permutation_app_comm.
Qed.

Section Protocol.
Variables a b : list Z.
Hypothesis Ha : StronglySorted Z.le a.
Hypothesis Hb : StronglySorted Z.le b.

Lemma step_A_turn c done mu :
  data (worker_a c) = a -> data (worker_b c) = b ->
  Turn a b (view_A c) (state_b c) done mu ->
  exists c' r,
    step_A c = (c', Ok r) /\
    data (worker_a c') = a /\ data (worker_b c') = b /\
    if done then r = false /\ Finished a b (out_file c')
    else exists mu',
        Turn b a (view_B c') (state_a c') (negb r) mu' /\
        (mu' <= mu)%nat /\ (r = true -> (mu' < mu)%nat).
Proof.
  intros Hda Hdb HT.
  destruct (turn_advance a b Ha Hb _ _ _ _ (worker_a c) [] Hda HT)
    as (s' & r & E & Hd' & Hres).
  unfold view_A in E. unfold step_A. rewrite E.
  eexists _, r. split; [reflexivity|].
  cbn [worker_a worker_b out_file state_a]. split; [exact Hd'|]. split; [exact Hdb|].
  exact Hres.
Qed.

Lemma step_B_turn c done mu :
  data (worker_a c) = a -> data (worker_b c) = b ->
  Turn b a (view_B c) (state_a c) done mu ->
  exists c' r,
    step_B c = (c', Ok r) /\
    data (worker_a c') = a /\ data (worker_b c') = b /\
    if done then r = false /\ Finished a b (out_file c')
    else exists mu',
        Turn a b (view_A c') (state_b c') (negb r) mu' /\
        (mu' <= mu)%nat /\ (r = true -> (mu' < mu)%nat).
Proof.
  intros Hda Hdb HT.
  destruct (turn_advance b a Hb Ha _ _ _ _ (worker_b c) [] Hdb HT)
    as (s' & r & E & Hd' & Hres).
  unfold view_B in E. unfold step_B. rewrite E.
  eexists _, r. split; [reflexivity|].
  cbn [worker_a worker_b out_file state_b]. split; [exact Hda|]. split; [exact Hd'|].
  destruct done; [|exact Hres].
  destruct Hres as [-> Hf]. split; [reflexivity | now apply finished_sym].
Qed.

(** From a turn of worker A at the top of the loop, with enough budget
    left, the loop ends with both workers done and the merge written, after
    no more steps than the turn needs. *)
Lemma loop_from_turn_A max_steps : forall mu c fuel steps done,
  data (worker_a c) = a -> data (worker_b c) = b ->
  Turn a b (view_A c) (state_b c) done mu ->
  steps + steps_needed done mu <= max_steps ->
  (Z.to_nat (max_steps - steps) <= fuel)%nat ->
  exists c' steps',
    run_loop step_A step_B fuel max_steps c true (negb done) steps
    = (c', Some (Ok (false, false, steps'))) /\
    steps' <= steps + steps_needed done mu /\
    Finished a b (out_file c').
Proof.
  induction mu as [mu IH] using lt_wf_ind.
  intros c fuel steps done Hda Hdb HT Hbudget Hfuel.
  assert (Hlt : steps < max_steps) by (unfold steps_needed in Hbudget; destruct done; lia).
  rewrite run_loop_unfold. cbn [orb andb].
  replace (steps <? max_steps) with true by (symmetry; now apply Z.ltb_lt).
  destruct fuel as [|fuel]; [lia|].
  destruct (step_A_turn c done mu Hda Hdb HT) as (c1 & rA & EA & Hda1 & Hdb1 & HresA).
  unfold run_turn at 1. rewrite EA.
  destruct done.
  - (* worker B was done: A ends the merge *)
    destruct HresA as [-> Hfin]. cbn [negb run_turn].
    rewrite run_loop_idle. eexists _, _. split; [reflexivity|].
    split; [unfold steps_needed; lia | exact Hfin].
  - destruct HresA as (mu1 & HT1 & Hle1 & Hlt1). cbn [negb].
    destruct (step_B_turn c1 (negb rA) mu1 Hda1 Hdb1 HT1)
      as (c2 & rB & EB & Hda2 & Hdb2 & HresB).
    unfold run_turn. rewrite EB.
    destruct rA; cbn [negb] in HresB.
    + (* both go on *)
      destruct HresB as (mu2 & HT2 & Hle2 & Hlt2).
      specialize (Hlt1 eq_refl).
      assert (Hneed : 2 + steps_needed (negb rB) mu2 <= steps_needed false mu).
      { unfold steps_needed. destruct rB; cbn [negb].
        - specialize (Hlt2 eq_refl). lia.
        - lia. }
      destruct (IH mu2 ltac:(lia) c2 fuel (steps + 1 + 1) (negb rB) Hda2 Hdb2 HT2)
        as (c' & steps' & E & Hsteps & Hfin); [lia | lia |].
      rewrite negb_involutive in E.
      exists c', steps'. split; [exact E|]. split; [lia | exact Hfin].
    + (* A was done: B ends the merge *)
      destruct HresB as [-> Hfin].
      rewrite run_loop_idle. eexists _, _. split; [reflexivity|].
      split; [unfold steps_needed; lia | exact Hfin].
Qed.
End Protocol.

Lemma read_output_render vs : forall w, read_output (render w vs) = Some vs.
Proof.
  induction vs as [|v vs IH]; intros w; [reflexivity|].
  assert (H : read_output (Num v :: render true vs) = Some (v :: vs)).
  { specialize (IH true). destruct vs as [|v' vs']; [reflexivity|].
    cbn [render app read_output] in IH |- *. rewrite IH. reflexivity. }
  destruct w; cbn [render app read_output]; exact H.
Qed.

Lemma firstn_min_length (l : list Z) k :
  firstn (Nat.min k (List.length l)) l = firstn k l.
Proof.
  destruct (Nat.le_gt_cases k (List.length l)) as [H | H].
  - now rewrite Nat.min_l.
  - rewrite Nat.min_r by lia. rewrite !firstn_all2 by lia. reflexivity.
Qed.

(** After the first move of worker A it is the turn of worker B. *)
Lemma first_turn_B a b sa :
  (b <> [] \/ (11 < List.length a)%nat) ->
  sa = mkState (if 11 <? py_len a then "LOCK" else "DONE")
               (Z.min (py_len a) 11) (py_len a) ->
  Turn b a
       (mkFiles (Some (mkMessage (String "F" (if 11 <? py_len a then "UNLO" else "DONE"))
                                 (firstn 11 a)))
                None [] None)
       (Some sa) (negb (11 <? py_len a))
       (chunks (List.length b) + chunks (List.length a - Nat.min 11 (List.length a)))%nat.
Proof.
  intros Hcond ->.
  exists 0%nat, (Nat.min 11 (List.length a)), false, (firstn 11 a), [], [], "INIT".
  assert (Hcase : (11 <? py_len a) = true /\ (11 < List.length a)%nat
                  \/ (11 <? py_len a) = false /\ (List.length a <= 11)%nat).
  { unfold py_len. destruct (11 <? Z.of_nat (List.length a)) eqn:E;
      [left; apply Z.ltb_lt in E | right; apply Z.ltb_ge in E]; split; auto; lia. }
  split; [now left|].
  split; [reflexivity|].
  split; [cbn [inbox]; destruct Hcase as [[-> _] | [-> _]]; reflexivity|].
  split.
  { f_equal. f_equal.
    - destruct Hcase as [[-> _] | [-> _]]; reflexivity.
    - unfold py_len. lia. }
  split; [lia|]. split; [lia|].
  split; [apply firstn_min_length|].
  split.
  { destruct Hcase as [[-> Hl] | [-> Hl]]; cbn [negb].
    - apply firstn_nonempty; [|lia]. intros ->. cbn in Hl. lia.
    - split; [lia|]. destruct Hcond as [Hne | Hl']; [exact Hne | lia]. }
  split; [reflexivity|]. split; [reflexivity|].
  split; [constructor|]. split; [constructor|].
  split; [apply below_nil_l|]. split; [apply below_nil_l|].
  split; [apply below_nil_l|]. cbn [skipn]. f_equal. f_equal. lia.
Qed.

(** The whole run from fresh files: both workers end done, within
    [chunks(len a) + chunks(len b) + 2] steps, with the merge written. *)
Lemma merge_protocol_run a b max_steps :
  StronglySorted Z.le a -> StronglySorted Z.le b ->
  (b <> [] \/ (11 < List.length a)%nat) ->
  Z.of_nat (chunks (List.length a) + chunks (List.length b)) + 2 <= max_steps ->
  exists c' steps,
    run_loop step_A step_B (Z.to_nat max_steps) max_steps (fresh_cluster a b) true true 0
    = (c', Some (Ok (false, false, steps))) /\
    steps <= Z.of_nat (chunks (List.length a) + chunks (List.length b)) + 2 /\
    Finished a b (out_file c').
Proof.
  intros Ha Hb Hcond Hbudget.
  rewrite run_loop_unfold. cbn [orb andb].
  replace (0 <? max_steps) with true by (symmetry; apply Z.ltb_lt; lia).
  destruct (Z.to_nat max_steps) as [|fuel] eqn:Efuel; [lia|].
  destruct (step_first_move (new_worker a no_files) (mkFiles None None [] None) []
              eq_refl eq_refl) as (s1 & E1 & Hd1 & Hfs1).
  cbn [data new_worker output] in E1, Hd1, Hfs1.
  unfold run_turn at 1. unfold step_A at 1.
  cbn [fresh_cluster worker_a worker_b a_to_b b_to_a out_file state_a state_b events].
  rewrite E1. rewrite Hfs1.
  cbn [inbox outbox output state_file].
  match goal with
  | |- context [run_turn step_B ?c1 true _] =>
      destruct (step_B_turn a b Ha Hb c1 (negb (11 <? py_len a))
                  (chunks (List.length b)
                   + chunks (List.length a - Nat.min 11 (List.length a)))%nat)
        as (c2 & rB & EB & Hda2 & Hdb2 & HresB);
      [ exact Hd1 | reflexivity | apply first_turn_B; [exact Hcond | reflexivity] | ]
  end.
  unfold run_turn. rewrite EB. cbn [Z.add].
  destruct (11 <? py_len a) eqn:Elen; cbn [negb] in HresB.
  - apply Z.ltb_lt in Elen. unfold py_len in Elen.
    destruct HresB as (mu2 & HT2 & Hle2 & Hlt2).
    assert (Hskip : (chunks (List.length a - Nat.min 11 (List.length a))
                     < chunks (List.length a))%nat).
    { rewrite Nat.min_l by lia. apply chunks_skip. lia. }
    assert (Hneed : 2 + steps_needed (negb rB) mu2
                    <= Z.of_nat (chunks (List.length a) + chunks (List.length b)) + 2).
    { unfold steps_needed. destruct rB; cbn [negb].
      - specialize (Hlt2 eq_refl). lia.
      - lia. }
    destruct (loop_from_turn_A a b Ha Hb max_steps mu2 c2 fuel 2 (negb rB) Hda2 Hdb2 HT2)
      as (c' & steps' & E & Hsteps & Hfin); [lia | lia |].
    rewrite negb_involutive in E.
    exists c', steps'. split; [exact E|]. split; [lia | exact Hfin].
  - destruct HresB as [-> Hfin].
    rewrite run_loop_idle. eexists _, _. split; [reflexivity|].
    split; [lia | exact Hfin].
Qed.

(** The merge, where the code completes it: two sorted runs, unless the
    second is empty while the first fits in one chunk, and a budget of
    [len(a) + len(b) + 2] steps.  [run] reports success and the output file
    reads back as the sorted merge of the two runs. *)
Theorem merge_protocol_correct a b max_steps :
  Sorted Z.le a -> Sorted Z.le b ->
  (b <> [] \/ (11 < List.length a)%nat) ->
  Z.of_nat (List.length a + List.length b) + 2 <= max_steps ->
  exists c' steps out,
    coordinator_run max_steps (fresh_cluster a b) = (c', Some (Ok (true, steps))) /\
    merged c' = Some out /\
    Sorted Z.le out /\
    Permutation out (a ++ b).
Proof.
  intros Hsa Hsb Hcond Hbudget.
  assert (Ha : StronglySorted Z.le a)
    by (apply Sorted_StronglySorted; [intros u v z; apply Z.le_trans | exact Hsa]).
  assert (Hb : StronglySorted Z.le b)
    by (apply Sorted_StronglySorted; [intros u v z; apply Z.le_trans | exact Hsb]).
  pose proof (chunks_le (List.length a)). pose proof (chunks_le (List.length b)).
  destruct (merge_protocol_run a b max_steps Ha Hb Hcond)
    as (c' & steps & E & _ & O & Ho & Hso & Hpo); [lia|].
  exists c', steps, O. unfold coordinator_run, run, run_fuel. rewrite E.
  split; [reflexivity|]. split; [|split; [now apply StronglySorted_Sorted | exact Hpo]].
  unfold merged. rewrite Ho. apply read_output_render.
Qed.

Lemma merge_protocol_correct_witness :
  exists c' steps out,
    coordinator_run 10 (fresh_cluster [1; 5; 9] [2; 6; 10; 14]) = (c', Some (Ok (true, steps))) /\
    merged c' = Some out /\ Sorted Z.le out /\ Permutation out ([1; 5; 9] ++ [2; 6; 10; 14]).
Proof.
  apply merge_protocol_correct.
  - repeat constructor; lia.
  - repeat constructor; lia.
  - left. discriminate.
  - cbn. lia.
Defined.

(** ** Where the code stops short: an empty run that receives [DONE] *)

(** C3 on the code: a worker with an empty run, no state file yet, and a
    [DONE] message in its inbox writes the checkpoints and then raises
    [IndexError] on [self.data[-1]]; the message is consumed and the state
    is not saved. *)
Theorem step_on_empty_run_raises :
  let f := mkFiles (Some (mkMessage "FDONE" [1; 2])) None [] None in
  let r := step (mkSys (new_worker [] f) f []) in
  snd r = Raise IndexError /\
  fs (fst r) = mkFiles None None [Num 1; Sep; Num 2] None.
Proof. vm_compute. split; reflexivity. Qed.

(** A step on a consistent persisted state returns normally, unless the
    inbox message has an empty tag or it is a [DONE] message received by a
    worker whose run is empty. *)
Lemma step_returns w f lg :
  wf_state (data w) (persisted (data w) f) ->
  (forall m, inbox f = Some m ->
             msg_type m <> EmptyString /\
             (inbox_is (Some (strip_flag m)) "DONE" = true -> data w <> [])) ->
  exists b, snd (step (mkSys w f lg)) = Ok b.
Proof.
  intros ((Hi0 & Hi1) & Hlen & _) Hmsg.
  destruct (step (mkSys w f lg)) as [s' r] eqn:E. apply step_outcome in E.
  inversion E as [ | | | s0 ps Hd Hfs Hl Hc | ]; subst; cbn [snd]; eauto.
  destruct Hc as (m & Hin & Hbad); [exact Hi0 | lia |].
  destruct (Hmsg m Hin) as [Hne Hdata].
  destruct Hbad as [Hempty | [Hdone Hnil]]; [contradiction|].
  now apply Hdata in Hdone.
Qed.

(** C1 on the code: with a second run that is empty and a first run that
    fits in one chunk, worker B raises [IndexError]; [run] returns no
    result, although the output already holds the first run. *)
Theorem merge_with_empty_second_run_raises :
  let r := coordinator_run 10000 (fresh_cluster [3; 7] []) in
  snd r = Some (Raise IndexError) /\ merged (fst r) = Some [3; 7].
Proof. vm_compute. split; reflexivity. Qed.

Lemma merge_of_two_empty_runs_raises :
  snd (coordinator_run 10000 (fresh_cluster [] [])) = Some (Raise IndexError).
Proof. vm_compute. reflexivity. Qed.

(** C2 on the code: one run empty, the other [1, 2, 3]; when the empty one
    is the second, [run] raises [IndexError] after the single [DONE]
    message of worker A, and worker B never answers. *)
Theorem one_empty_run_raises :
  let r := coordinator_run 10000 (fresh_cluster [1; 2; 3] []) in
  snd r = Some (Raise IndexError) /\
  sent_messages (map snd (events (fst r))) = [mkMessage "FDONE" [1; 2; 3]] /\
  state_b (fst r) = None.
Proof. vm_compute. repeat split; reflexivity. Qed.

(** When the empty run is the first, the merge completes in two steps:
    worker A sends [DONE] with nothing, worker B writes its whole run in
    order and answers [DONE] with nothing. *)
Lemma empty_first_run_completes b max_steps :
  Sorted Z.le b -> b <> [] -> 2 <= max_steps ->
  exists c',
    coordinator_run max_steps (fresh_cluster [] b) = (c', Some (Ok (true, 2))) /\
    merged c' = Some b /\
    b_to_a c' = Some (mkMessage "TDONE" []).
Proof.
  intros Hsb Hne Hbudget.
  assert (Hb : StronglySorted Z.le b)
    by (apply Sorted_StronglySorted; [intros u v z; apply Z.le_trans | exact Hsb]).
  unfold coordinator_run, run, run_fuel.
  rewrite run_loop_unfold. cbn [orb andb].
  replace (0 <? max_steps) with true by (symmetry; apply Z.ltb_lt; lia).
  destruct (Z.to_nat max_steps) as [|fuel] eqn:Efuel; [lia|].
  unfold run_turn at 1.
  replace (step_A (fresh_cluster [] b))
    with (mkCluster (mkWorker [] (mkState "DONE" 0 0) (mkStats 0 1 0 0))
                    (new_worker b no_files)
                    (Some (mkMessage "FDONE" [])) None [] (Some (mkState "DONE" 0 0)) None
                    [(WA, EvStateSave (mkState "DONE" 0 0));
                     (WA, EvOutboxWrite (mkMessage "FDONE" []))], Ok false)
    by reflexivity.
  unfold run_turn at 1. unfold step_B.
  cbn [worker_a worker_b a_to_b b_to_a out_file state_a state_b events].
  destruct (step_on_final (new_worker b no_files)
              (mkFiles (Some (mkMessage "FDONE" [])) None [] None) [] "F"%char []
              (or_introl eq_refl)) as (s' & E & Hd & Hfs);
    try assumption.
  { cbn. unfold py_len. lia. }
  { reflexivity. }
  { reflexivity. }
  cbn [weave fst snd app skipn persisted state_file _initial_state index len
       output Z.to_nat data new_worker] in Hfs.
  rewrite E, Hfs. cbn [inbox outbox output state_file Z.add].
  rewrite run_loop_idle. eexists. split; [reflexivity|].
  cbn [merged out_file b_to_a app]. split; [apply read_output_render|].
  destruct b; [congruence | reflexivity].
Qed.
(** ** What every step leaves alone *)

(** A step never touches [self.data], never rewrites what the output file
    already holds, and only adds to the log. *)
Theorem step_only_appends w f lg :
  let s' := fst (step (mkSys w f lg)) in
  data (self s') = data w /\
  exists ps new,
    output (fs s') = output f ++ ps /\
    log s' = lg ++ new /\
    ps = flat_map (fun e => match e with EvOutputWrite p => [p] | _ => [] end) new.
Proof.
  intros s'. subst s'.
  destruct (step (mkSys w f lg)) as [s' r] eqn:E. apply step_outcome in E.
  cbn [fst].
  assert (Hmap : forall ps : list Piece,
             flat_map (fun e => match e with EvOutputWrite p => [p] | _ => [] end)
                      (map EvOutputWrite ps) = ps).
  { induction ps as [|p ps IH]; cbn; [reflexivity | now rewrite IH]. }
  assert (Hreads : flat_map (fun e => match e with EvOutputWrite p => [p] | _ => [] end)
                            (reads f) = []).
  { unfold reads. now destruct (inbox f). }
  inversion E as [ Hp | Hp Hi | mi Hp Hi H1 H2 | s0 ps Hd Hfs Hl Hc
                 | s0 ps m0 wr Hd Hp Hfs Hl Hadv Hch ]; subst; cbn.
  - split; [reflexivity|]. exists [], []. now rewrite !app_nil_r.
  - split; [reflexivity|]. exists [], []. now rewrite !app_nil_r.
  - split; [reflexivity|]. exists [], [EvInboxRead mi]. now rewrite app_nil_r.
  - split; [exact Hd|]. exists ps, (reads f ++ map EvOutputWrite ps).
    rewrite Hfs, Hl. cbn. split; [reflexivity|]. split; [reflexivity|].
    now rewrite flat_map_app, Hreads, Hmap.
  - split; [exact Hd|].
    exists ps, (reads f ++ map EvOutputWrite ps
                ++ [EvStateSave (state (self s')); EvOutboxWrite (stamp wr m0)]).
    rewrite Hfs, Hl. cbn. split; [reflexivity|]. split; [reflexivity|].
    rewrite !flat_map_app, Hreads, Hmap. cbn. now rewrite app_nil_r.
Qed.

(** A worker that is not finished consumes its inbox: after the step the
    inbox file does not exist, whether the step returned, ignored the
    message or raised. *)
Theorem step_consumes_inbox w f lg :
  phase (persisted (data w) f) <> "DONE" ->
  inbox (fs (fst (step (mkSys w f lg)))) = None.
Proof.
  intros Hnd.
  destruct (step (mkSys w f lg)) as [s' r] eqn:E. apply step_outcome in E.
  cbn [fst].
  inversion E as [ Hp | Hp Hi | mi Hp Hi H1 H2 | s0 ps Hd Hfs Hl Hc
                 | s0 ps m0 wr Hd Hp Hfs Hl Hadv Hch ]; subst; cbn.
  - contradiction.
  - exact Hi.
  - reflexivity.
  - now rewrite Hfs.
  - now rewrite Hfs.
Qed.

Lemma step_consumes_inbox_witness :
  let w := new_worker [4; 5] no_files in
  let f := mkFiles (Some (mkMessage "Thello" [1])) None [] (Some (mkState "LOCK" 2 2)) in
  phase (persisted (data w) f) <> "DONE" /\
  inbox (fs (fst (step (mkSys w f [])))) = None.
Proof.
  intros w f.
  assert (H : phase (persisted (data w) f) <> "DONE") by (cbn; discriminate).
  split; [exact H | exact (step_consumes_inbox w f [] H)].
Defined.

(** What [step] returns is what it left on disk: [False] exactly when the
    state a later [_load_state] will find has phase [DONE]; and the state
    in memory is that state. *)
Theorem step_result_is_persisted_phase w f lg b :
  snd (step (mkSys w f lg)) = Ok b ->
  let s' := fst (step (mkSys w f lg)) in
  b = negb (String.eqb (phase (persisted (data w) (fs s'))) "DONE") /\
  state (self s') = persisted (data w) (fs s').
Proof.
  destruct (step (mkSys w f lg)) as [s' r] eqn:E. apply step_outcome in E.
  cbn [fst snd].
  inversion E as [ Hp | Hp Hi | mi Hp Hi H1 H2 | s0 ps Hd Hfs Hl Hc
                 | s0 ps m0 wr Hd Hp Hfs Hl Hadv Hch ]; subst;
    intros Hr; try discriminate Hr; injection Hr as <-; cbn [self fs state].
  - rewrite Hp. split; reflexivity.
  - rewrite Hp. split; reflexivity.
  - replace (persisted (data w) (mkFiles None (outbox f) (output f) (state_file f)))
      with (persisted (data w) f) by reflexivity.
    rewrite Hp. split; reflexivity.
  - assert (Hps : persisted (data w) (fs s') = state (self s')).
    { unfold persisted. now rewrite Hfs. }
    rewrite Hps. split; reflexivity.
Qed.

Lemma step_result_is_persisted_phase_witness :
  let w := new_worker (range 0 12 1) no_files in
  let s' := fst (step (mkSys w no_files [])) in
  true = negb (String.eqb (phase (persisted (data w) (fs s'))) "DONE") /\
  state (self s') = persisted (data w) (fs s').
Proof.
  intros w. exact (step_result_is_persisted_phase w no_files [] true eq_refl).
Defined.

(** A step on a consistent state that raises, raises [IndexError]; it had
    a message in its inbox and has removed it, it has not saved its state
    and has not written its outbox: the message is lost. *)
Theorem raising_step_loses_message w f lg e :
  wf_state (data w) (persisted (data w) f) ->
  snd (step (mkSys w f lg)) = Raise e ->
  let s' := fst (step (mkSys w f lg)) in
  e = IndexError /\
  (exists m, inbox f = Some m /\
             (msg_type m = EmptyString \/
              (inbox_is (Some (strip_flag m)) "DONE" = true /\ data w = []))) /\
  inbox (fs s') = None /\
  state_file (fs s') = state_file f /\
  outbox (fs s') = outbox f /\
  exists ps, output (fs s') = output f ++ ps /\
             log s' = lg ++ reads f ++ map EvOutputWrite ps.
Proof.
  intros ((Hi0 & _) & Hlen & _).
  destruct (step (mkSys w f lg)) as [s' r] eqn:E. apply step_outcome in E.
  cbn [fst snd].
  inversion E as [ | | | s0 ps Hd Hfs Hl Hc | ]; subst;
    intros Hr; try discriminate Hr; injection Hr as <-.
  destruct Hc as (m & Hin & Hbad); [exact Hi0 | lia |].
  split; [reflexivity|]. split; [exists m; auto|].
  rewrite Hfs. cbn.
  split; [reflexivity|]. split; [reflexivity|]. split; [reflexivity|].
  exists ps. split; [reflexivity|]. rewrite Hl. unfold reads. rewrite Hin. reflexivity.
Qed.

Lemma raising_step_loses_message_witness :
  let w := new_worker [] no_files in
  let f := mkFiles (Some (mkMessage "FDONE" [1; 2])) None [] None in
  let s' := fst (step (mkSys w f [])) in
  inbox (fs s') = None /\ state_file (fs s') = None /\ outbox (fs s') = None.
Proof.
  intros w f s'.
  assert (Hwf : wf_state (data w) (persisted (data w) f)).
  { unfold wf_state, known_phase. cbn. repeat split; auto; lia. }
  destruct (raising_step_loses_message w f [] IndexError Hwf eq_refl)
    as (_ & _ & H1 & H2 & H3 & _).
  exact (conj H1 (conj H2 H3)).
Defined.

(** ** The empty run, in general *)

Lemma weave_nil cps : weave cps [] = (cps, []).
Proof.
  induction cps as [|c cps IH]; [reflexivity|].
  rewrite weave_cons. cbn [take_below drop_below app]. now rewrite IH.
Qed.

(** With nothing of its own to write, a worker that is told the peer is
    done writes the checkpoints and then fails on [self.data[-1]]. *)
Lemma build_message_empty_run wr cps s :
  data (self s) = [] ->
  run_left s [] ->
  String.eqb (phase (state (self s))) "DONE" = false ->
  exists t' st',
    build_message wr (Some (mkMessage "DONE" cps)) s
    = (emit_sys s t' st' wr cps, Raise IndexError).
Proof.
  intros Hd Hrl Hph.
  unfold build_message. unfold bind at 1, get_state at 1.
  cbn [is_some negb]. rewrite andb_false_r.
  cbn [inbox_is msg_type values]. cbn [String.eqb Ascii.eqb Bool.eqb]. rewrite Hph.
  unfold bind at 1.
  destruct (emit_checkpoints_exact cps wr s [] Hrl) as [t1 E1]. rewrite E1.
  rewrite weave_nil. cbn [fst snd].
  unfold bind at 1, data_at at 1, bind at 1, get_data at 1.
  cbn [emit_sys self data]. rewrite Hd. cbn [py_getitem py_len List.length].
  eexists _, _. reflexivity.
Qed.

Lemma step_with_message_raise w f lg c tag cps s1 e :
  let st := persisted (data w) f in
  phase st = "INIT" \/ phase st = "LOCK" ->
  inbox f = Some (mkMessage (String c tag) cps) ->
  tag = "DONE" \/ tag = "UNLO" ->
  build_message (Ascii.eqb c "T") (Some (mkMessage tag cps))
    (mkSys (mkWorker (data w) (unlocked st) (inc_received (stats w)))
           (mkFiles None (outbox f) (output f) (state_file f))
           (lg ++ [EvInboxRead (mkMessage (String c tag) cps)]))
  = (s1, Raise e) ->
  step (mkSys w f lg) = (s1, Raise e).
Proof.
  intros st Hph Hin Htag E.
  unfold step, step_compute, bind.
  rewrite load_state_eq. unfold set_state at 1. cbn [self fs log data stats].
  fold st.
  assert (Hnd : String.eqb (phase st) "DONE" = false)
    by (destruct Hph as [-> | ->]; reflexivity).
  rewrite Hnd.
  unfold read_inbox. cbn [self fs log data stats state inbox outbox output state_file].
  rewrite Hin. unfold split_flag. cbn [msg_type values ret].
  assert (Hun : (is_some (Some (mkMessage tag cps))
                 && (inbox_is (Some (mkMessage tag cps)) "DONE"
                     || inbox_is (Some (mkMessage tag cps)) "UNLO"))%bool = true)
    by (destruct Htag as [-> | ->]; reflexivity).
  rewrite Hun.
  unfold unlocked in E.
  destruct (String.eqb (phase st) "LOCK") eqn:Elock.
  - unfold set_phase, get_state, set_state, bind.
    cbn [self fs log data stats state inbox outbox output state_file phase index len].
    unfold step_branches, bind. rewrite E. reflexivity.
  - unfold step_branches, bind. rewrite E. reflexivity.
Qed.

(** The defect behind the failing merges, for every worker: whoever holds
    an empty run and is not finished raises [IndexError] on a [DONE]
    message, after writing the checkpoints of the message to the output;
    the message is gone, the state is not saved and no reply is sent. *)
Theorem empty_run_raises_on_done w f lg c cps :
  data w = [] ->
  wf_state (data w) (persisted (data w) f) ->
  phase (persisted (data w) f) = "INIT" \/ phase (persisted (data w) f) = "LOCK" ->
  inbox f = Some (mkMessage (String c "DONE") cps) ->
  snd (step (mkSys w f lg)) = Raise IndexError /\
  fs (fst (step (mkSys w f lg)))
  = mkFiles None (outbox f) (output f ++ render (Ascii.eqb c "T") cps) (state_file f).
Proof.
  intros Hd (Hi & Hlen & _) Hph Hin.
  set (st := persisted (data w) f) in *.
  set (s0 := mkSys (mkWorker (data w) (unlocked st) (inc_received (stats w)))
                   (mkFiles None (outbox f) (output f) (state_file f))
                   (lg ++ [EvInboxRead (mkMessage (String c "DONE") cps)])).
  assert (Hrl : run_left s0 []).
  { unfold run_left, s0. cbn [self state data]. rewrite unlocked_index, unlocked_len.
    split; [exact Hi|]. split; [exact Hlen|]. rewrite Hd. apply skipn_nil. }
  assert (Hnd : String.eqb (phase (state (self s0))) "DONE" = false).
  { cbn [s0 self state]. unfold unlocked.
    destruct Hph as [H | H]; rewrite H; cbn [String.eqb Ascii.eqb Bool.eqb phase];
      [rewrite H|]; reflexivity. }
  destruct (build_message_empty_run (Ascii.eqb c "T") cps s0 Hd Hrl Hnd) as (t' & st' & E).
  rewrite (step_with_message_raise w f lg c "DONE" cps _ _ Hph Hin (or_introl eq_refl) E).
  split; reflexivity.
Qed.

Lemma empty_run_raises_on_done_witness :
  let f := mkFiles (Some (mkMessage "TDONE" [8; 9])) None [Num 1] (Some (mkState "LOCK" 0 0)) in
  let r := step (mkSys (new_worker [] f) f []) in
  snd r = Raise IndexError /\
  fs (fst r) = mkFiles None None ([Num 1] ++ render true [8; 9]) (Some (mkState "LOCK" 0 0)).
Proof.
  intros f r.
  refine (empty_run_raises_on_done (new_worker [] f) f [] "T"%char [8; 9] eq_refl _ _ eq_refl).
  - unfold wf_state, known_phase. cbn. repeat split; auto; lia.
  - right. reflexivity.
Defined.

(** A waiting worker that finds a message it does not expect (any tag but
    [DONE] and [UNLO] after the flag character) removes it, counts it as
    received and returns [True]: the message is dropped, nothing is
    written and the state is not saved. *)
Theorem locked_unknown_tag_drops_message w f lg m c rest :
  phase (persisted (data w) f) = "LOCK" ->
  inbox f = Some m ->
  msg_type m = String c rest ->
  rest <> "DONE" -> rest <> "UNLO" ->
  step (mkSys w f lg)
  = (mkSys (mkWorker (data w) (persisted (data w) f) (inc_received (stats w)))
           (mkFiles None (outbox f) (output f) (state_file f))
           (lg ++ [EvInboxRead m]), Ok true).
Proof.
  intros Hp Hin Htag H1 H2. unfold step, step_compute, bind.
  rewrite load_state_eq. unfold set_state at 1. cbn [self fs log data stats].
  rewrite Hp. cbn [String.eqb Ascii.eqb Bool.eqb].
  unfold read_inbox. cbn [self fs log data stats state inbox outbox output state_file].
  rewrite Hin. unfold split_flag. rewrite Htag. cbn [ret is_some inbox_is msg_type andb].
  apply String.eqb_neq in H1, H2. rewrite H1, H2. reflexivity.
Qed.

Lemma locked_unknown_tag_drops_message_witness :
  let w := new_worker [4; 5] no_files in
  let f := mkFiles (Some (mkMessage "TLOCK" [1])) None [] (Some (mkState "LOCK" 2 2)) in
  step (mkSys w f [])
  = (mkSys (mkWorker [4; 5] (mkState "LOCK" 2 2) (mkStats 0 0 1 0))
           (mkFiles None None [] (Some (mkState "LOCK" 2 2)))
           [EvInboxRead (mkMessage "TLOCK" [1])], Ok true).
Proof.
  intros w f.
  refine (locked_unknown_tag_drops_message w f [] _ "T"%char "LOCK" eq_refl eq_refl eq_refl _ _);
    discriminate.
Defined.

(** ** What a sending step persists *)

(** The message the branches build and the phase they leave. *)
Lemma build_message_phase wr ib s s1 m w1 :
  build_message wr ib s = (s1, Ok (Some m, w1)) ->
  (msg_type m = "UNLO" /\ phase (state (self s1)) = "LOCK") \/
  (msg_type m = "DONE" /\
   (phase (state (self s1)) = "DONE" \/
    (phase (state (self s1)) = "LOCK" /\ inbox_is ib "DONE" = true))).
Proof.
  unfold build_message. unfold bind at 1, get_state at 1.
  destruct (String.eqb (phase (state (self s))) "INIT" && negb (is_some ib))%bool.
  { step_prims.
    destruct (len (state (self s)) <=? Z.min (len (state (self s))) (index (state (self s)) + 11));
      intros H; injection H as <- <- _; cbn; auto. }
  destruct (inbox_is ib "DONE") eqn:Edone.
  { destruct (String.eqb (phase (state (self s))) "DONE"); [discriminate|].
    unfold bind at 1.
    destruct (emit_checkpoints _ wr s) as [s2 [w2|e]]; [|discriminate].
    step_prims.
    destruct (py_getitem (data (self s2)) (-1)) as [lastv|]; [|discriminate].
    destruct (output_till_spec (lastv + 1) false w2 s2) as (s3 & r3 & E3 & _ & _ & Hr3 & _).
    rewrite E3. destruct r3 as [[p w3]|e]; [|discriminate].
    intros H; injection H as <- <- _. cbn. right. split; [reflexivity|].
    destruct Hr3 as [-> | ->]; auto. }
  unfold bind at 1.
  destruct (emit_checkpoints _ wr s) as [s2 [w2|e]]; [|discriminate].
  step_prims.
  destruct (negb (String.eqb (phase (state (self s2))) "DONE")) eqn:Eph;
    intros H; injection H as <- <- _; cbn; auto.
  right. split; [reflexivity|]. left.
  apply negb_false_iff in Eph. now apply String.eqb_eq.
Qed.

Ltac through_branches Hnd :=
  match goal with
  | |- context [step_branches ?wr ?ib ?s0] =>
      let s1 := fresh "s1" in let r1 := fresh "r1" in
      let E := fresh "E" in let Happ := fresh "Happ" in
      let Hr := fresh "Hr" in
      destruct (step_branches_spec wr ib s0) as (s1 & r1 & E & Happ & _ & Hr & _);
      destruct Happ as (_ & _ & Ho1 & Hs1 & _);
      cbn [self fs log data stats state inbox outbox output state_file phase index len] in *;
      destruct r1 as [[[m0|] w1]|e];
      [ destruct Hr as [Hr _]; rewrite Hr; cbn [ret]; rewrite step_send_some;
        intros H; injection H as <- <-;
        cbn [fst snd self fs log data stats state inbox outbox output state_file];
        right; exists (state (self s1)), m0, w1;
        split; [reflexivity|]; split; [reflexivity|];
        exact (build_message_phase _ _ _ _ _ _ E)
      | destruct Hr as [_ Hr];
        first [discriminate Hr | exfalso; apply Hnd; exact Hr]
      | destruct Hr as [-> Hr]; rewrite Hr;
        intros H; injection H as <- <-;
        left; split; assumption ]
  end.

(** Either a step leaves the state file and the outbox as they were, or it
    writes both: the state with the phase, the message with the tag that
    the branches produced. *)
Lemma step_saves_and_sends w f lg s' r :
  step (mkSys w f lg) = (s', r) ->
  (state_file (fs s') = state_file f /\ outbox (fs s') = outbox f) \/
  exists st m0 wr,
    state_file (fs s') = Some st /\
    outbox (fs s') = Some (stamp wr m0) /\
    ((msg_type m0 = "UNLO" /\ phase st = "LOCK") \/
     (msg_type m0 = "DONE" /\
      (phase st = "DONE" \/
       (phase st = "LOCK" /\
        inbox_is (option_map strip_flag (inbox f)) "DONE" = true)))).
Proof.
  unfold step, step_compute, bind.
  rewrite load_state_eq. unfold set_state at 1. cbn [self fs log data stats].
  set (st := persisted (data w) f).
  destruct (String.eqb (phase st) "DONE") eqn:Edone.
  { cbn. intros H; injection H as <- <-. left. split; reflexivity. }
  assert (Hnd : phase st <> "DONE") by (now apply String.eqb_neq).
  unfold read_inbox. cbn [self fs log data stats state inbox outbox output state_file].
  destruct (inbox f) as [m|] eqn:Ein.
  - unfold split_flag at 1. destruct (msg_type m) as [|c rest] eqn:Etag.
    { cbn. intros H; injection H as <- <-. left. split; reflexivity. }
    cbn [ret].
    assert (Hstrip : strip_flag m = mkMessage rest (values m)).
    { unfold strip_flag. now rewrite Etag. }
    cbn [option_map]. rewrite <- Hstrip.
    destruct (String.eqb (phase st) "LOCK") eqn:Elock.
    + destruct (is_some (Some (strip_flag m))
                && (inbox_is (Some (strip_flag m)) "DONE"
                    || inbox_is (Some (strip_flag m)) "UNLO"))%bool eqn:Eun.
      * unfold set_phase, get_state, set_state, bind.
        cbn [self fs log data stats state inbox outbox output state_file phase index len].
        through_branches Hnd.
      * cbn. intros H; injection H as <- <-. left. split; reflexivity.
    + through_branches Hnd.
  - unfold split_flag at 1. cbn [ret].
    destruct (String.eqb (phase st) "LOCK") eqn:Elock.
    + cbn. intros H; injection H as <- <-. left. split; reflexivity.
    + through_branches Hnd.
Qed.

(** A step either leaves the state file and the outbox alone, or writes
    both.  The phase it persists is then [LOCK] or [DONE], never [INIT] or
    [UNLOCK]; the message carries a flag character and the tag [UNLO] or
    [DONE]; with [UNLO] the phase is [LOCK], and a worker that persists
    [DONE] says [DONE]. *)
Theorem saved_phase_is_lock_or_done w f lg :
  let s' := fst (step (mkSys w f lg)) in
  (state_file (fs s') = state_file f /\ outbox (fs s') = outbox f) \/
  exists st flag tag vs,
    state_file (fs s') = Some st /\
    outbox (fs s') = Some (mkMessage (String flag tag) vs) /\
    (flag = "T"%char \/ flag = "F"%char) /\
    ((tag = "UNLO" /\ phase st = "LOCK") \/
     (tag = "DONE" /\ (phase st = "DONE" \/ phase st = "LOCK"))).
Proof.
  intros s'. subst s'.
  destruct (step (mkSys w f lg)) as [s' r] eqn:E. cbn [fst].
  destruct (step_saves_and_sends _ _ _ _ _ E) as [H | (st & m0 & wr & Hs & Ho & Hph)];
    [left; exact H | right].
  exists st, (if wr then "T"%char else "F"%char), (msg_type m0), (values m0).
  split; [exact Hs|]. split; [rewrite Ho; unfold stamp; now destruct wr|].
  split; [destruct wr; auto|].
  destruct Hph as [[Ht Hp] | [Ht [Hp | [Hp _]]]]; auto.
Qed.

(** ** The statistics count the effects *)

Lemma count_events_app p l1 l2 :
  count_events p (l1 ++ l2) = count_events p l1 + count_events p l2.
Proof. unfold count_events. rewrite filter_app, length_app. lia. Qed.

Lemma count_events_nonneg p l : 0 <= count_events p l.
Proof. unfold count_events. lia. Qed.

Lemma tallied_refl s : tallied s s.
Proof.
  exists []. rewrite app_nil_r. unfold count_events. cbn. repeat split; lia.
Qed.

Lemma tallied_trans s1 s2 s3 : tallied s1 s2 -> tallied s2 s3 -> tallied s1 s3.
Proof.
  intros (n1 & Hl1 & Hv1 & Hr1 & Hs1 & Hc1) (n2 & Hl2 & Hv2 & Hr2 & Hs2 & Hc2).
  exists (n1 ++ n2). rewrite !count_events_app.
  split; [now rewrite Hl2, Hl1, app_assoc|].
  pose proof (count_events_nonneg is_number_write n1).
  pose proof (count_events_nonneg is_number_write n2).
  repeat split; lia.
Qed.

(** A change of the state in memory alone. *)
Lemma tallied_same s s' :
  log s' = log s -> stats (self s') = stats (self s) -> tallied s s'.
Proof.
  intros Hl Ht. exists []. rewrite app_nil_r, Ht. unfold count_events. cbn.
  repeat split; auto; lia.
Qed.

Lemma tallies_ret {A} (a : A) : tallies (ret a).
Proof. intros s. apply tallied_refl. Qed.

Lemma tallies_raise {A} e : tallies (@raise A e).
Proof. intros s. apply tallied_refl. Qed.

Lemma tallies_bind {A B} (c : M A) (k : A -> M B) :
  tallies c -> (forall a, tallies (k a)) -> tallies (bind c k).
Proof.
  intros Hc Hk s. unfold bind. specialize (Hc s).
  destruct (c s) as [s1 [a|e]]; cbn [fst] in *; [|exact Hc].
  eapply tallied_trans; [exact Hc | apply Hk].
Qed.

Lemma tallies_get_data : tallies get_data.
Proof. intros s. apply tallied_refl. Qed.

Lemma tallies_get_state : tallies get_state.
Proof. intros s. apply tallied_refl. Qed.

Lemma tallies_set_state st : tallies (set_state st).
Proof. intros s. now apply tallied_same. Qed.

Lemma tallies_set_phase p : tallies (set_phase p).
Proof. intros s. now apply tallied_same. Qed.

Lemma tallies_set_index i : tallies (set_index i).
Proof. intros s. now apply tallied_same. Qed.

Lemma tallies_load : tallies _load_state.
Proof. intros s. unfold _load_state. destruct (state_file (fs s)); apply tallied_refl. Qed.

Lemma tallies_data_at i : tallies (data_at i).
Proof.
  intros s. unfold data_at, bind, get_data.
  destruct (py_getitem (data (self s)) i); apply tallied_refl.
Qed.

Lemma tallies_sep (write : bool) :
  tallies (if write then append_output Sep else ret tt).
Proof.
  intros s. destruct write; [|apply tallied_refl].
  exists [EvOutputWrite Sep]. unfold count_events. cbn. repeat split; lia.
Qed.

Lemma tallies_save : tallies _save_state.
Proof.
  intros s. exists [EvStateSave (state (self s))]. unfold count_events. cbn.
  repeat split; lia.
Qed.

Lemma tallies_write_msg m : tallies (write_msg m).
Proof.
  intros s. exists [EvOutboxWrite m]. unfold count_events. cbn. repeat split; lia.
Qed.

Lemma tallies_read_inbox : tallies read_inbox.
Proof.
  intros s. unfold read_inbox. destruct (inbox (fs s)) as [m|]; [|apply tallied_refl].
  exists [EvInboxRead m]. unfold count_events. cbn. repeat split; lia.
Qed.

(** One value of the own run: written, compared, counted. *)
Lemma tallies_own_value v :
  tallies (append_output (Num v) ;; set_stats inc_comparisons ;; set_stats inc_output).
Proof.
  intros s. exists [EvOutputWrite (Num v)]. unfold count_events. cbn. repeat split; lia.
Qed.

(** One checkpoint of the peer: written and counted, not compared. *)
Lemma tallies_checkpoint v :
  tallies (append_output (Num v) ;; set_stats inc_output).
Proof.
  intros s. exists [EvOutputWrite (Num v)]. unfold count_events. cbn. repeat split; lia.
Qed.

Lemma bind_assoc {A B C} (c : M A) (k : A -> M B) (h : B -> M C) s :
  bind (bind c k) h s = bind c (fun a => bind (k a) h) s.
Proof. unfold bind. destruct (c s) as [s1 [a|e]]; reflexivity. Qed.

Lemma tallies_ext {A} (c c' : M A) : (forall s, c s = c' s) -> tallies c -> tallies c'.
Proof. intros H Hc s. rewrite <- H. apply Hc. Qed.

Lemma tallies_output_loop fuel : forall max_v idx count write,
  tallies (output_loop fuel max_v idx count write).
Proof.
  induction fuel as [|fuel IH]; intros max_v idx count write; cbn [output_loop].
  - apply tallies_ret.
  - destruct (idx <? count); [|apply tallies_ret].
    apply tallies_bind; [apply tallies_data_at|]. intros v.
    destruct (v <? max_v); [|apply tallies_ret].
    apply tallies_bind; [apply tallies_sep|]. intros _.
    apply (tallies_ext
             ((append_output (Num v) ;; set_stats inc_comparisons ;; set_stats inc_output) ;;
              output_loop fuel max_v (idx + 1) count true)).
    { intros s. reflexivity. }
    apply tallies_bind; [apply tallies_own_value | intros _; apply IH].
Qed.

Lemma tallies_output_till max_v include write : tallies (output_till max_v include write).
Proof.
  unfold output_till.
  apply tallies_bind; [apply tallies_get_state|]. intros st.
  apply tallies_bind; [apply tallies_output_loop|]. intros [idx w1].
  apply tallies_bind; [apply tallies_set_index|]. intros _.
  apply tallies_bind.
  - destruct include; [|apply tallies_ret].
    apply tallies_bind; [apply tallies_sep|]. intros _.
    apply (tallies_ext ((append_output (Num max_v) ;; set_stats inc_output) ;; ret true)).
    { intros s. reflexivity. }
    apply tallies_bind; [apply tallies_checkpoint | intros _; apply tallies_ret].
  - intros w2. destruct (len st <=? idx); apply tallies_ret.
Qed.

Lemma tallies_emit_checkpoints vs : forall write, tallies (emit_checkpoints vs write).
Proof.
  induction vs as [|i vs IH]; intros write; cbn [emit_checkpoints].
  - apply tallies_ret.
  - apply tallies_bind; [apply tallies_output_till|]. intros [p w1].
    apply tallies_bind; [apply tallies_set_phase | intros _; apply IH].
Qed.

Lemma tallies_build_message write ib : tallies (build_message write ib).
Proof.
  unfold build_message.
  apply tallies_bind; [apply tallies_get_state|]. intros st.
  destruct (String.eqb (phase st) "INIT" && negb (is_some ib))%bool.
  { apply tallies_bind; [apply tallies_get_data|]. intros d.
    apply tallies_bind; [apply tallies_set_index|]. intros _.
    destruct (len st <=? Z.min (len st) (index st + 11));
      (apply tallies_bind; [apply tallies_set_phase | intros _; apply tallies_ret]). }
  destruct (inbox_is ib "DONE").
  { destruct (String.eqb (phase st) "DONE"); [apply tallies_ret|].
    apply tallies_bind; [apply tallies_emit_checkpoints|]. intros w1.
    apply tallies_bind; [apply tallies_data_at|]. intros lastv.
    apply tallies_bind; [apply tallies_output_till|]. intros [p w2].
    apply tallies_bind; [apply tallies_set_phase | intros _; apply tallies_ret]. }
  apply tallies_bind; [apply tallies_emit_checkpoints|]. intros w1.
  apply tallies_bind; [apply tallies_get_state|]. intros st1.
  apply tallies_bind; [apply tallies_get_data|]. intros d.
  apply tallies_bind; [apply tallies_set_index|]. intros _.
  destruct (negb (String.eqb (phase st1) "DONE")); [|apply tallies_ret].
  apply tallies_bind; [apply tallies_set_phase | intros _; apply tallies_ret].
Qed.

Lemma tallies_step_branches write ib : tallies (step_branches write ib).
Proof.
  unfold step_branches.
  apply tallies_bind; [apply tallies_build_message|]. intros r.
  apply tallies_bind; [apply tallies_save | intros _; apply tallies_ret].
Qed.

Lemma tallies_step_send msg write ib : tallies (step_send msg write ib).
Proof.
  unfold step_send.
  apply tallies_bind; [destruct msg; [apply tallies_ret | apply tallies_raise]|]. intros m.
  apply tallies_bind; [apply tallies_get_state|]. intros st.
  destruct (String.eqb (phase st) "DONE").
  - apply tallies_bind; [apply tallies_write_msg | intros _; apply tallies_ret].
  - apply tallies_bind; [apply tallies_write_msg|]. intros _.
    destruct (is_some ib && _ && _)%bool; apply tallies_ret.
Qed.

Lemma tallies_step : tallies step.
Proof.
  unfold step.
  apply tallies_bind.
  - unfold step_compute.
    apply tallies_bind; [apply tallies_load|]. intros st.
    apply tallies_bind; [apply tallies_set_state|]. intros _.
    destruct (String.eqb (phase st) "DONE"); [apply tallies_ret|].
    apply tallies_bind; [apply tallies_read_inbox|]. intros raw.
    apply tallies_bind.
    { unfold split_flag. destruct raw as [m|]; [|apply tallies_ret].
      destruct (msg_type m); [apply tallies_raise | apply tallies_ret]. }
    intros [wr ib].
    assert (Hcont : tallies ('(msg, write) <- step_branches wr ib ;;
                             ret (inr (msg, write, ib) : bool + _))).
    { apply tallies_bind; [apply tallies_step_branches|]. intros [msg w1].
      apply tallies_ret. }
    destruct (String.eqb (phase st) "LOCK"); [|exact Hcont].
    destruct (is_some ib && _)%bool; [|apply tallies_ret].
    apply tallies_bind; [apply tallies_set_phase | intros _; exact Hcont].
  - intros [b | [[msg wr] ib]]; [apply tallies_ret | apply tallies_step_send].
Qed.

(** After any step (returned or raised) the counters of [WorkerStats]
    have grown by what the step did: [values_output] by the numbers written
    to the output, [messages_received] by the inbox reads, [messages_sent]
    by the outbox writes; [comparisons] by at most the numbers written. *)
Theorem stats_count_the_effects w f lg :
  let s' := fst (step (mkSys w f lg)) in
  exists new,
    log s' = lg ++ new /\
    values_output (stats (self s'))
    = values_output (stats w) + count_events is_number_write new /\
    messages_received (stats (self s'))
    = messages_received (stats w) + count_events is_inbox_read new /\
    messages_sent (stats (self s'))
    = messages_sent (stats w) + count_events is_outbox_write new /\
    comparisons (stats w) <= comparisons (stats (self s'))
    <= comparisons (stats w) + count_events is_number_write new.
Proof. intros s'. exact (tallies_step (mkSys w f lg)). Qed.

(** ** What [output_till] and the checkpoint loop write *)

(** [output_till(b, include)] on a consistent state: the values of the run
    from the cursor on that are below [b], up to the first that is not,
    go to the output in order, then [b] itself if [include]; the cursor
    moves past what was written; the phase returned is [DONE] exactly when
    nothing of the run is left; a separator goes before every number but
    the first one of an empty file. *)
Theorem output_till_writes_values_below (b : Z) (include write : bool) (s : Sys) :
  wf_state (data (self s)) (state (self s)) ->
  let rest := skipn (Z.to_nat (index (state (self s)))) (data (self s)) in
  let written := take_below b rest ++ (if include then [b] else []) in
  let s' := fst (output_till b include write s) in
  snd (output_till b include write s)
  = Ok (if nonempty (drop_below b rest) then "LOCK" else "DONE",
        (write || nonempty written)%bool) /\
  output (fs s') = output (fs s) ++ render write written /\
  index (state (self s'))
  = index (state (self s)) + Z.of_nat (List.length (take_below b rest)) /\
  skipn (Z.to_nat (index (state (self s')))) (data (self s')) = drop_below b rest.
Proof.
  intros (Hi & Hlen & _) rest written s'.
  assert (Hrl : run_left s rest) by (unfold run_left; auto).
  destruct (output_till_exact b include write s rest Hrl) as [t' E].
  subst s'. rewrite E. cbn [fst snd emit_sys self fs state data output index].
  fold written.
  assert (Hsplit : rest = take_below b rest ++ drop_below b rest)
    by (symmetry; apply take_drop_below).
  assert (Hlr : Z.of_nat (List.length rest) = len (state (self s)) - index (state (self s))).
  { unfold rest. rewrite skipn_length_Z; lia. }
  assert (Hidx : len (state (self s)) - Z.of_nat (List.length (drop_below b rest))
                 = index (state (self s)) + Z.of_nat (List.length (take_below b rest))).
  { pose proof (f_equal (@List.length Z) Hsplit) as Hl. rewrite length_app in Hl. lia. }
  split; [|split; [reflexivity|split; [exact Hidx|]]].
  - f_equal. f_equal. unfold phase_for. now destruct (drop_below b rest).
  - rewrite Hidx.
    replace (Z.to_nat (index (state (self s)) + Z.of_nat (List.length (take_below b rest))))
      with (Z.to_nat (index (state (self s))) + List.length (take_below b rest))%nat by lia.
    apply skipn_more. fold rest. exact Hsplit.
Qed.

Lemma output_till_writes_values_below_witness :
  let s := mkSys (mkWorker [1; 4; 6; 9] (mkState "UNLOCK" 1 4) (mkStats 0 0 0 0))
                 (mkFiles None None [Num 1] None) [] in
  snd (output_till 7 true true s) = Ok ("LOCK", true) /\
  output (fs (fst (output_till 7 true true s)))
  = [Num 1; Sep; Num 4; Sep; Num 6; Sep; Num 7].
Proof.
  intros s.
  assert (Hwf : wf_state (data (self s)) (state (self s))).
  { unfold wf_state, known_phase. cbn. repeat split; auto; lia. }
  destruct (output_till_writes_values_below 7 true true s Hwf) as (H1 & H2 & _).
  exact (conj H1 H2).
Defined.

(** The loop over the checkpoints of a message merges them with the own
    run: if the rest of the run and the checkpoints are sorted, what is
    written is sorted, holds the checkpoints and a prefix of the rest of
    the run, and lies below what is left of the run, where the cursor now
    stands. *)
Theorem emit_checkpoints_merges cps write s rest :
  run_left s rest ->
  StronglySorted Z.le rest -> StronglySorted Z.le cps ->
  exists s' w' out k,
    emit_checkpoints cps write s = (s', Ok w') /\
    output (fs s') = output (fs s) ++ render write out /\
    StronglySorted Z.le out /\
    Permutation out (cps ++ firstn k rest) /\
    below out (skipn k rest) /\
    run_left s' (skipn k rest).
Proof.
  intros Hrl Hrest Hcps.
  destruct (emit_checkpoints_exact cps write s rest Hrl) as [t' E].
  destruct (weave_perm cps rest) as (taken & Hsplit & Hperm).
  destruct (weave_sorted cps [] rest (SSorted_nil _) Hcps Hrest
              (below_nil_l _) (below_nil_l _)) as [Hs Hb].
  cbn [app] in Hs, Hb.
  assert (Hf : firstn (List.length taken) rest = taken).
  { rewrite Hsplit at 1. rewrite firstn_app, Nat.sub_diag, firstn_all. cbn. apply app_nil_r. }
  assert (Hk : skipn (List.length taken) rest = snd (weave cps rest)).
  { rewrite Hsplit at 1. rewrite skipn_app, Nat.sub_diag, skipn_all. reflexivity. }
  eexists _, _, (fst (weave cps rest)), (List.length taken).
  split; [exact E|]. split; [reflexivity|]. split; [exact Hs|].
  rewrite Hf, Hk. split; [exact Hperm|]. split; [exact Hb|].
  eapply run_left_emit; eassumption.
Qed.

Lemma emit_checkpoints_merges_witness :
  let s := mkSys (mkWorker [1; 4; 6; 9] (mkState "UNLOCK" 1 4) (mkStats 0 0 0 0))
                 (mkFiles None None [Num 1] None) [] in
  exists s' w' out k,
    emit_checkpoints [2; 5] true s = (s', Ok w') /\
    output (fs s') = output (fs s) ++ render true out /\
    StronglySorted Z.le out /\
    Permutation out ([2; 5] ++ firstn k [4; 6; 9]) /\
    below out (skipn k [4; 6; 9]) /\
    run_left s' (skipn k [4; 6; 9]).
Proof.
  intros s.
  apply (emit_checkpoints_merges [2; 5] true s [4; 6; 9]).
  - unfold run_left. cbn. repeat split; lia.
  - repeat constructor; lia.
  - repeat constructor; lia.
Defined.

(** ** The merge within its chunk count *)

(** Two sorted runs (the failing case apart) are merged in at most one
    step per chunk of 11 values and two more: a budget of
    [ceil(len(a)/11) + ceil(len(b)/11) + 2] is enough for [run] to report
    success, and it takes no more steps than that. *)
Theorem merge_steps_bounded a b max_steps :
  Sorted Z.le a -> Sorted Z.le b ->
  (b <> [] \/ (11 < List.length a)%nat) ->
  Z.of_nat (chunks (List.length a) + chunks (List.length b)) + 2 <= max_steps ->
  exists c' steps,
    coordinator_run max_steps (fresh_cluster a b) = (c', Some (Ok (true, steps))) /\
    steps <= Z.of_nat (chunks (List.length a) + chunks (List.length b)) + 2.
Proof.
  intros Hsa Hsb Hcond Hbudget.
  assert (Ha : StronglySorted Z.le a)
    by (apply Sorted_StronglySorted; [intros u v z; apply Z.le_trans | exact Hsa]).
  assert (Hb : StronglySorted Z.le b)
    by (apply Sorted_StronglySorted; [intros u v z; apply Z.le_trans | exact Hsb]).
  destruct (merge_protocol_run a b max_steps Ha Hb Hcond Hbudget)
    as (c' & steps & E & Hsteps & _).
  exists c', steps. unfold coordinator_run, run, run_fuel. rewrite E.
  split; [reflexivity | exact Hsteps].
Qed.

Lemma merge_steps_bounded_witness :
  exists c' steps,
    coordinator_run 6 (fresh_cluster (range 0 12 2) (range 1 12 2))
    = (c', Some (Ok (true, steps))) /\
    steps <= Z.of_nat (chunks 12 + chunks 12) + 2.
Proof.
  apply (merge_steps_bounded (range 0 12 2) (range 1 12 2) 6).
  - repeat constructor; lia.
  - repeat constructor; lia.
  - left. discriminate.
  - vm_compute. discriminate.
Defined.

(** ** Witnesses *)

Lemma empty_first_run_completes_witness :
  exists c',
    coordinator_run 2 (fresh_cluster [] [3; 4; 8]) = (c', Some (Ok (true, 2))) /\
    merged c' = Some [3; 4; 8] /\
    b_to_a c' = Some (mkMessage "TDONE" []).
Proof.
  apply (empty_first_run_completes [3; 4; 8] 2).
  - repeat constructor; lia.
  - discriminate.
  - lia.
Defined.

Lemma step_returns_witness :
  let w := new_worker [2; 4] no_files in
  let f := mkFiles (Some (mkMessage "FUNLO" [1; 3])) None [] None in
  exists b, snd (step (mkSys w f [])) = Ok b.
Proof.
  intros w f. apply (step_returns w f []).
  - unfold wf_state, known_phase. cbn. repeat split; auto; lia.
  - intros m Hm. injection Hm as <-. split; [discriminate|]. intros _. discriminate.
Defined.

Lemma run_steps_le_budget_plus_one_witness :
  0 <= 2 <= 1 + 1 /\ (true = false -> 1 <= 2).
Proof.
  apply (run_steps_le_budget_plus_one step_A step_B 1 (fresh_cluster [1] [2])
           (fst (coordinator_run 1 (fresh_cluster [1] [2]))) true 2).
  - lia.
  - vm_compute. reflexivity.
Defined.

(** ** Steps counted *)

Section Counted.
Context {World : Type}.
Variables step_a step_b : World -> World * Result bool.

(** [total_steps] is the number of [step()] calls [run] made, whatever the
    workers do (here: any two step functions, wrapped so that each call
    is counted). *)
Theorem total_steps_counts_calls max_steps w n' w' success steps :
  run (counting step_a) (counting step_b) max_steps (0%nat, w)
  = ((n', w'), Some (Ok (success, steps))) ->
  steps = Z.of_nat n'.
Proof.
  unfold run, run_fuel.
  destruct (run_loop (counting step_a) (counting step_b) (Z.to_nat max_steps) max_steps
              (0%nat, w) true true 0) as [[n1 w1] [[[[a1 b1] steps1]|e]|]] eqn:E;
    try discriminate.
  intros H; injection H as <- <- _ <-.
  apply run_loop_counts in E. cbn [snd] in E. lia.
Qed.
End Counted.

Lemma total_steps_counts_calls_witness : 2 = Z.of_nat 2.
Proof.
  apply (total_steps_counts_calls step_A step_B 1 (fresh_cluster [1] [2])
           2%nat (snd (fst (run (counting step_A) (counting step_B) 1
                                (0%nat, fresh_cluster [1] [2])))) true 2).
  vm_compute. reflexivity.
Defined.

(** ** No recovery from a lost message *)

Lemma step_waits w f :
  phase (persisted (data w) f) = "LOCK" ->
  inbox f = None ->
  step (mkSys w f [])
  = (mkSys (mkWorker (data w) (persisted (data w) f) (stats w)) f [], Ok true).
Proof.
  intros Hp Hin. unfold step, step_compute, bind.
  rewrite load_state_eq. unfold set_state at 1. cbn [self fs log data stats].
  rewrite Hp. cbn [String.eqb Ascii.eqb Bool.eqb].
  unfold read_inbox. cbn [self fs log data stats state].
  rewrite Hin. reflexivity.
Qed.

Lemma waiting_step_A c :
  Waiting c ->
  exists c', step_A c = (c', Ok true) /\ same_files c c' /\ Waiting c'.
Proof.
  intros ((sa & Hsa & Hpa) & HB & Hab & Hba).
  unfold step_A. rewrite step_waits.
  - eexists. split; [reflexivity|].
    cbn [self fs log inbox outbox output state_file map].
    rewrite app_nil_r.
    split; [unfold same_files; cbn; auto 10|].
    unfold Waiting; cbn. repeat split; eauto.
  - unfold persisted. cbn. now rewrite Hsa.
  - exact Hba.
Qed.

Lemma waiting_step_B c :
  Waiting c ->
  exists c', step_B c = (c', Ok true) /\ same_files c c' /\ Waiting c'.
Proof.
  intros (HA & (sb & Hsb & Hpb) & Hab & Hba).
  unfold step_B. rewrite step_waits.
  - eexists. split; [reflexivity|].
    cbn [self fs log inbox outbox output state_file map].
    rewrite app_nil_r.
    split; [unfold same_files; cbn; auto 10|].
    unfold Waiting; cbn. repeat split; eauto.
  - unfold persisted. cbn. now rewrite Hsb.
  - exact Hab.
Qed.

Lemma same_files_trans c1 c2 c3 : same_files c1 c2 -> same_files c2 c3 -> same_files c1 c3.
Proof.
  unfold same_files. intros (H1 & H2 & H3 & H4 & H5 & H6) (K1 & K2 & K3 & K4 & K5 & K6).
  repeat split; congruence.
Qed.

Lemma waiting_loop fuel : forall max_steps c steps,
  Waiting c ->
  (Z.to_nat (max_steps - steps) <= fuel)%nat ->
  exists c' steps',
    run_loop step_A step_B fuel max_steps c true true steps
    = (c', Some (Ok (true, true, steps'))) /\
    same_files c c' /\ steps <= steps' /\ max_steps <= steps'.
Proof.
  induction fuel as [|fuel IH]; intros max_steps c steps Hw Hfuel;
    rewrite run_loop_unfold; cbn [orb andb];
    destruct (steps <? max_steps) eqn:Elt.
  - apply Z.ltb_lt in Elt. lia.
  - apply Z.ltb_ge in Elt. eexists _, _. split; [reflexivity|].
    split; [unfold same_files; auto 10 | lia].
  - apply Z.ltb_lt in Elt.
    destruct (waiting_step_A c Hw) as (c1 & E1 & Hf1 & Hw1).
    destruct (waiting_step_B c1 Hw1) as (c2 & E2 & Hf2 & Hw2).
    unfold run_turn. rewrite E1, E2.
    destruct (IH max_steps c2 (steps + 1 + 1) Hw2) as (c' & steps' & E & Hf & Hle & Hmax); [lia|].
    exists c', steps'. split; [exact E|].
    split; [|lia].
    eapply same_files_trans; [exact Hf1|]. eapply same_files_trans; eassumption.
  - apply Z.ltb_ge in Elt. eexists _, _. split; [reflexivity|].
    split; [unfold same_files; auto 10 | lia].
Qed.

(** Two workers that both wait, with nothing in either mailbox, never get
    going again: [run] spends the whole budget on steps that do nothing,
    reports [success = False], and leaves every file as it was. *)
Theorem waiting_workers_never_finish c max_steps :
  Waiting c ->
  exists c' steps,
    coordinator_run max_steps c = (c', Some (Ok (false, steps))) /\
    max_steps <= steps /\
    same_files c c'.
Proof.
  intros Hw. unfold coordinator_run, run, run_fuel.
  destruct (waiting_loop (Z.to_nat max_steps) max_steps c 0 Hw) as (c' & steps & E & Hf & _ & Hmax);
    [lia|].
  rewrite E. exists c', steps. cbn [orb negb]. auto.
Qed.

Lemma waiting_workers_never_finish_witness :
  let c := mkCluster (new_worker (range 0 12 1) no_files) (new_worker [5] no_files)
                     None None (render false (range 0 11 1))
                     (Some (mkState "LOCK" 11 12)) (Some (mkState "LOCK" 1 1)) [] in
  exists c' steps,
    coordinator_run 100 c = (c', Some (Ok (false, steps))) /\
    100 <= steps /\ same_files c c'.
Proof.
  intros c. apply (waiting_workers_never_finish c 100).
  unfold Waiting. cbn. repeat split; eauto.
Defined.

(** ** The first message *)

(** The first message of a worker that holds at least 11 values carries
    the first 11 of them: one more than the comment on [Message.values]
    allows.  Its tag has the 5 characters the comment on
    [Message.msg_type] allows, and nothing is written to the output. *)
Theorem first_chunk_has_eleven_values w f lg :
  state_file f = None -> inbox f = None ->
  11 <= py_len (data w) ->
  let s' := fst (step (mkSys w f lg)) in
  exists m,
    outbox (fs s') = Some m /\
    values m = firstn 11 (data w) /\
    List.length (values m) = 11%nat /\
    String.length (msg_type m) = 5%nat /\
    output (fs s') = output f.
Proof.
  intros Hs Hi Hlen s'. subst s'.
  destruct (step_first_move w f lg Hs Hi) as (s' & E & _ & Hfs).
  rewrite E. cbn [fst]. rewrite Hfs. cbn [outbox output].
  eexists. split; [reflexivity|]. cbn [values msg_type].
  split; [reflexivity|]. split.
  - rewrite length_firstn. unfold py_len in Hlen. lia.
  - split; [|reflexivity]. destruct (11 <? py_len (data w)); reflexivity.
Qed.

Lemma first_chunk_has_eleven_values_witness :
  let w := new_worker (range 0 11 1) no_files in
  exists m,
    outbox (fs (fst (step (mkSys w no_files [])))) = Some m /\
    values m = firstn 11 (data w) /\
    List.length (values m) = 11%nat /\
    String.length (msg_type m) = 5%nat /\
    output (fs (fst (step (mkSys w no_files [])))) = output no_files.
Proof.
  intros w. apply (first_chunk_has_eleven_values w no_files [] eq_refl eq_refl).
  vm_compute. discriminate.
Defined.

(** ** Running a finished merge again *)

Lemma step_finished w f :
  phase (persisted (data w) f) = "DONE" ->
  step (mkSys w f [])
  = (mkSys (mkWorker (data w) (persisted (data w) f) (stats w)) f [], Ok false).
Proof.
  intros Hp. unfold step, step_compute, bind.
  rewrite load_state_eq. unfold set_state at 1. cbn [self fs log data stats].
  rewrite Hp. reflexivity.
Qed.

(** [Coordinator.run] over the files of a completed merge (both state
    files say [DONE]) calls each worker once, reports success, and leaves
    mailboxes, output and state files untouched: nothing is written twice.
    With a budget of zero it would call nobody and report failure, hence
    the condition on [max_steps]. *)
Theorem finished_merge_rerun_is_noop c max_steps :
  Completed c -> 0 < max_steps ->
  exists c',
    coordinator_run max_steps c = (c', Some (Ok (true, 2))) /\ same_files c c'.
Proof.
  intros [(sa & Hsa & Hpa) (sb & Hsb & Hpb)] Hpos.
  unfold coordinator_run, run, run_fuel.
  rewrite run_loop_unfold. cbn [orb andb].
  replace (0 <? max_steps) with true by (symmetry; apply Z.ltb_lt; lia).
  destruct (Z.to_nat max_steps) as [|fuel] eqn:Efuel; [lia|].
  unfold run_turn at 1. unfold step_A. rewrite step_finished
    by (unfold persisted; cbn; now rewrite Hsa).
  cbn [self fs log inbox outbox output state_file map].
  unfold run_turn at 1. unfold step_B.
  cbn [worker_a worker_b a_to_b b_to_a out_file state_a state_b events].
  rewrite step_finished by (unfold persisted; cbn; now rewrite Hsb).
  cbn [self fs log inbox outbox output state_file map Z.add].
  rewrite run_loop_idle. eexists. split; [reflexivity|].
  unfold same_files. cbn. rewrite !app_nil_r. auto 10.
Qed.

Lemma finished_merge_rerun_is_noop_witness :
  let c := mkCluster (new_worker [1; 3] no_files) (new_worker [2] no_files)
                     None (Some (mkMessage "TDONE" [])) (render false [1; 2; 3])
                     (Some (mkState "DONE" 2 2)) (Some (mkState "DONE" 1 1)) [] in
  exists c', coordinator_run 1 c = (c', Some (Ok (true, 2))) /\ same_files c c'.
Proof.
  intros c. apply (finished_merge_rerun_is_noop c 1).
  - unfold Completed. cbn. split; eauto.
  - lia.
Defined.
